(** * Errand OS: response ingestion and plan-state reconciliation

    A shallow embedding of the two page-level components of the repository,
    [ErrandOS] (src/index.tsx) and [ErrandOptimizer] (the second component
    file), together with the string primitives of the host language that
    their response parser relies on, and the properties of the
    specification stated over them. *)

From Stdlib Require Import Ascii String ZArith NArith QArith Lia Bool List.
Import ListNotations.
Close Scope Q_scope.

Set Implicit Arguments.
Set Warnings "-register-all".

(** ** Strings of the host language

    A JavaScript string is a sequence of UTF-16 code units. *)

Definition code_unit := N.
Definition str := list code_unit.

(** A literal of the source text, given here as an ASCII string. *)
Definition lit (s : string) : str := map N_of_ascii (list_ascii_of_string s).

(** The same, with every apostrophe standing for a double quote (code unit
    34), so that JSON texts can be written down readably. *)
Definition jlit (s : string) : str :=
  map (fun c => if (c =? 39)%N then 34%N else c) (lit s).

Definition str_eqb (a b : str) : bool :=
  if list_eq_dec N.eq_dec a b then true else false.

(** [WhiteSpace] and [LineTerminator] code units, the ones
    [String.prototype.trim] strips. *)
Definition isWhiteSpace (c : code_unit) : bool :=
  ((c =? 9) || (c =? 10) || (c =? 11) || (c =? 12) || (c =? 13) || (c =? 32)
   || (c =? 160) || (c =? 5760) || ((8192 <=? c) && (c <=? 8202))
   || (c =? 8232) || (c =? 8233) || (c =? 8239) || (c =? 8287)
   || (c =? 12288) || (c =? 65279))%N.

Fixpoint trimStart (s : str) : str :=
  match s with
  | [] => []
  | c :: s' => if isWhiteSpace c then trimStart s' else s
  end.

Definition trimEnd (s : str) : str := rev (trimStart (rev s)).

(** [s.trim()] *)
Definition trim (s : str) : str := trimEnd (trimStart s).

Fixpoint startsWith (pat s : str) : bool :=
  match pat, s with
  | [], _ => true
  | _ :: _, [] => false
  | p :: pat', c :: s' => (p =? c)%N && startsWith pat' s'
  end.

(** Whether [pat] matches somewhere in [s]. *)
Fixpoint occurs (pat s : str) : bool :=
  match s with
  | [] => startsWith pat []
  | _ :: s' => startsWith pat s || occurs pat s'
  end.

(** [s.replace(/pat/g, '')] for a literal, non-empty pattern: the matches
    are found left to right and do not overlap.  [skip] counts the code
    units of the current match that are still to be dropped. *)
Fixpoint removeAll_from (pat : str) (skip : nat) (s : str) : str :=
  match s with
  | [] => []
  | c :: s' =>
      match skip with
      | S k => removeAll_from pat k s'
      | O =>
          if startsWith pat s
          then removeAll_from pat (Nat.pred (length pat)) s'
          else c :: removeAll_from pat 0 s'
      end
  end.

Definition removeAll (pat s : str) : str :=
  match pat with
  | [] => s
  | _ :: _ => removeAll_from pat 0 s
  end.

(** [s.indexOf(c)] for a one-unit search string: the first index, or -1. *)
Fixpoint indexOf_from (c : code_unit) (i : Z) (s : str) : Z :=
  match s with
  | [] => -1
  | x :: s' => if (x =? c)%N then i else indexOf_from c (i + 1) s'
  end.

Definition indexOf (s : str) (c : code_unit) : Z := indexOf_from c 0 s.

(** [s.lastIndexOf(c)]: the last index, or -1. *)
Fixpoint lastIndexOf_from (c : code_unit) (i found : Z) (s : str) : Z :=
  match s with
  | [] => found
  | x :: s' => lastIndexOf_from c (i + 1) (if (x =? c)%N then i else found) s'
  end.

Definition lastIndexOf (s : str) (c : code_unit) : Z :=
  lastIndexOf_from c 0 (-1) s.

(** [s.substring(a, b)]: both arguments are clamped to [0, length], and
    swapped when the first exceeds the second. *)
Definition clamp (len x : Z) : Z := Z.min (Z.max x 0) len.

Definition substring (s : str) (a b : Z) : str :=
  let len := Z.of_nat (length s) in
  let a' := clamp len a in
  let b' := clamp len b in
  let from := Z.min a' b' in
  let to := Z.max a' b' in
  firstn (Z.to_nat (to - from)) (skipn (Z.to_nat from) s).

(** [parts.join(sep)] *)
Fixpoint join (sep : str) (parts : list str) : str :=
  match parts with
  | [] => []
  | [p] => p
  | p :: rest => p ++ sep ++ join sep rest
  end.

(** Truthiness of a string value. *)
Definition nonEmpty (s : str) : bool :=
  match s with [] => false | _ :: _ => true end.

(** ** Completions

    A call either returns normally or throws.  What is thrown is [null] or
    [undefined] ([Nullish]), or any other value, kept with the name of its
    constructor and with its [message] property when that is a string
    ([None] when the value has none, as for a thrown string). *)

Inductive exn :=
| Nullish
| Thrown (errorName : string) (message : option str).

(** [new Error(m)] *)
Definition Error (m : str) : exn := Thrown "Error" (Some m).

Inductive completion (A : Type) : Type :=
| Normal (a : A)
| Throw (e : exn).
Arguments Normal {A} a.
Arguments Throw {A} e.

Definition bind {A B} (c : completion A) (k : A -> completion B)
  : completion B :=
  match c with
  | Normal a => k a
  | Throw e => Throw e
  end.

Notation "x <- c ;; k" := (bind c (fun x => k))
  (at level 61, c at next level, right associativity).

(** [try { body } catch (e) { handler }] *)
Definition try_catch {A} (body : completion A) (handler : exn -> completion A)
  : completion A :=
  match body with
  | Normal a => Normal a
  | Throw e => handler e
  end.

Fixpoint mapM {A B} (f : A -> completion B) (l : list A)
  : completion (list B) :=
  match l with
  | [] => Normal []
  | a :: l' => b <- f a ;; bs <- mapM f l' ;; Normal (b :: bs)
  end.

Definition TypeError : exn :=
  Thrown "TypeError" (Some (lit "not an object")).

Definition SyntaxError : exn :=
  Thrown "SyntaxError" (Some (lit "unexpected token")).

Definition RangeError : exn :=
  Thrown "RangeError" (Some (lit "nesting too deep")).

Definition URIError : exn :=
  Thrown "URIError" (Some (lit "URI malformed")).

(** ** A reference decoder for [JSON.parse]

    The components are stated over an arbitrary decoder (see the sections
    below).  This one follows the JSON grammar of ECMA-404 and is used to
    run them on concrete response texts.  A number is kept as its lexeme:
    no floating-point value is computed. *)

Module JSON.

Inductive value : Type :=
| Null
| Bool (b : bool)
| Number (lexeme : str)
| String (s : str)
| Array (elems : list value)
| Object (members : list (str * value)).

Inductive outcome (A : Type) : Type :=
| Ok (a : A) (rest : str)
| Bad
| OutOfFuel.
Arguments Ok {A} a rest.
Arguments Bad {A}.
Arguments OutOfFuel {A}.

Definition isJsonSpace (c : code_unit) : bool :=
  ((c =? 9) || (c =? 10) || (c =? 13) || (c =? 32))%N.

Fixpoint skip_ws (s : str) : str :=
  match s with
  | [] => []
  | c :: s' => if isJsonSpace c then skip_ws s' else s
  end.

Definition isDigit (c : code_unit) : bool := ((48 <=? c) && (c <=? 57))%N.

Definition hexval (c : code_unit) : option N :=
  if isDigit c then Some (c - 48)%N
  else if ((97 <=? c) && (c <=? 102))%N then Some (c - 87)%N
  else if ((65 <=? c) && (c <=? 70))%N then Some (c - 55)%N
  else None.

Definition hex4 (a b c d : code_unit) : option code_unit :=
  match hexval a, hexval b, hexval c, hexval d with
  | Some x, Some y, Some z, Some w =>
      Some (x * 4096 + y * 256 + z * 16 + w)%N
  | _, _, _, _ => None
  end.

(** The unit a one-letter escape stands for. *)
Definition simple_escape (e : code_unit) : option code_unit :=
  if (e =? 34)%N then Some 34%N          (* quote *)
  else if (e =? 92)%N then Some 92%N     (* backslash *)
  else if (e =? 47)%N then Some 47%N     (* slash *)
  else if (e =? 98)%N then Some 8%N      (* b *)
  else if (e =? 102)%N then Some 12%N    (* f *)
  else if (e =? 110)%N then Some 10%N    (* n *)
  else if (e =? 114)%N then Some 13%N    (* r *)
  else if (e =? 116)%N then Some 9%N     (* t *)
  else None.

(** The characters of a string after its opening quote, up to and
    including the closing one. *)
Fixpoint string_body (acc : str) (s : str) : option (str * str) :=
  match s with
  | [] => None
  | c :: s' =>
      if (c =? 34)%N then Some (rev acc, s')
      else if (c =? 92)%N then
        match s' with
        | [] => None
        | e :: s'' =>
            if (e =? 117)%N then
              match s'' with
              | h1 :: h2 :: h3 :: h4 :: s3 =>
                  match hex4 h1 h2 h3 h4 with
                  | Some u => string_body (u :: acc) s3
                  | None => None
                  end
              | _ => None
              end
            else
              match simple_escape e with
              | Some u => string_body (u :: acc) s''
              | None => None
              end
        end
      else if (c <? 32)%N then None
      else string_body (c :: acc) s'
  end.

Fixpoint span_digits (s : str) : str * str :=
  match s with
  | [] => ([], [])
  | c :: s' =>
      if isDigit c
      then let (d, r) := span_digits s' in (c :: d, r)
      else ([], s)
  end.

(** number = [ - ] int [ . digits ] [ (e|E) [ + | - ] digits ] *)
Definition lex_number (s : str) : option (str * str) :=
  let (sign, s1) :=
    match s with
    | c :: s' => if (c =? 45)%N then ([c], s') else ([], s)
    | [] => ([], s)
    end in
  let (int, s2) := span_digits s1 in
  match int with
  | [] => None
  | d :: ds =>
      if (d =? 48)%N && nonEmpty ds then None
      else
        let frac :=
          match s2 with
          | c :: s' =>
              if (c =? 46)%N then
                let (f, r) := span_digits s' in
                if nonEmpty f then Some (c :: f, r) else None
              else Some ([], s2)
          | [] => Some ([], s2)
          end in
        match frac with
        | None => None
        | Some (f, s3) =>
            let ex :=
              match s3 with
              | c :: s' =>
                  if ((c =? 101) || (c =? 69))%N then
                    let (sg, s4) :=
                      match s' with
                      | g :: s'' =>
                          if ((g =? 43) || (g =? 45))%N
                          then ([g], s'') else ([], s')
                      | [] => ([], s')
                      end in
                    let (e, r) := span_digits s4 in
                    if nonEmpty e then Some (c :: sg ++ e, r) else None
                  else Some ([], s3)
              | [] => Some ([], s3)
              end in
            match ex with
            | None => None
            | Some (e, s5) => Some (sign ++ int ++ f ++ e, s5)
            end
        end
  end.

Definition keyword (k : string) (v : value) (s : str) : outcome value :=
  if startsWith (lit k) s
  then Ok v (skipn (List.length (lit k)) s)
  else Bad.

(** Recursive descent.  [parse_value] reads one value after optional
    white space; [parse_elements] and [parse_members] read the rest of
    an array or object whose first element or key starts at [s]. *)
Fixpoint parse_value (fuel : nat) (s : str) : outcome value :=
  match fuel with
  | O => OutOfFuel
  | S fuel' =>
      match skip_ws s with
      | [] => Bad
      | c :: s' =>
          if (c =? 123)%N then
            match skip_ws s' with
            | [] => Bad
            | d :: s'' =>
                if (d =? 125)%N then Ok (Object []) s''
                else parse_members fuel' [] (d :: s'')
            end
          else if (c =? 91)%N then
            match skip_ws s' with
            | [] => Bad
            | d :: s'' =>
                if (d =? 93)%N then Ok (Array []) s''
                else parse_elements fuel' [] (d :: s'')
            end
          else if (c =? 34)%N then
            match string_body [] s' with
            | Some (v, r) => Ok (String v) r
            | None => Bad
            end
          else if (c =? 116)%N then keyword "true" (Bool true) (c :: s')
          else if (c =? 102)%N then keyword "false" (Bool false) (c :: s')
          else if (c =? 110)%N then keyword "null" Null (c :: s')
          else
            match lex_number (c :: s') with
            | Some (l, r) => Ok (Number l) r
            | None => Bad
            end
      end
  end

with parse_elements (fuel : nat) (acc : list value) (s : str)
  : outcome value :=
  match fuel with
  | O => OutOfFuel
  | S fuel' =>
      match parse_value fuel' s with
      | Ok v r =>
          match skip_ws r with
          | [] => Bad
          | c :: r' =>
              if (c =? 44)%N then parse_elements fuel' (v :: acc) r'
              else if (c =? 93)%N then Ok (Array (rev (v :: acc))) r'
              else Bad
          end
      | Bad => Bad
      | OutOfFuel => OutOfFuel
      end
  end

with parse_members (fuel : nat) (acc : list (str * value)) (s : str)
  : outcome value :=
  match fuel with
  | O => OutOfFuel
  | S fuel' =>
      match skip_ws s with
      | [] => Bad
      | q :: s1 =>
          if negb (q =? 34)%N then Bad
          else
            match string_body [] s1 with
            | None => Bad
            | Some (k, s2) =>
                match skip_ws s2 with
                | [] => Bad
                | c :: s3 =>
                    if negb (c =? 58)%N then Bad
                    else
                      match parse_value fuel' s3 with
                      | Ok v r =>
                          match skip_ws r with
                          | [] => Bad
                          | d :: r' =>
                              if (d =? 44)%N
                              then parse_members fuel' ((k, v) :: acc) r'
                              else if (d =? 125)%N
                              then Ok (Object (rev ((k, v) :: acc))) r'
                              else Bad
                          end
                      | Bad => Bad
                      | OutOfFuel => OutOfFuel
                      end
                end
            end
      end
  end.

(** [JSON.parse(text)]: one value, white space around it, nothing else.
    Of any two calls of the descent that follow each other, one has
    consumed a code unit, so twice the length of the text is fuel
    enough. *)
Definition parse (text : str) : completion value :=
  match parse_value (2 * List.length text + 2) text with
  | Ok v rest =>
      match skip_ws rest with
      | [] => Normal v
      | _ :: _ => Throw SyntaxError
      end
  | Bad => Throw SyntaxError
  | OutOfFuel => Throw RangeError
  end.

(** The value of a property of an object; the last of several members
    with the same key wins. *)
Fixpoint get (key : str) (members : list (str * value)) : option value :=
  match members with
  | [] => None
  | (k, v) :: rest =>
      match get key rest with
      | Some w => Some w
      | None => if str_eqb k key then Some v else None
      end
  end.

(** The parts of a number lexeme: the number its digits before the
    exponent spell, how many of them stand after the point, and what is
    left from the exponent mark on. *)
Fixpoint mantissa (afterPoint : bool) (digits places : N) (l : str)
  : N * N * str :=
  match l with
  | [] => (digits, places, [])
  | c :: l' =>
      if isDigit c then
        mantissa afterPoint (digits * 10 + (c - 48))%N
          (if afterPoint then places + 1 else places)%N l'
      else if (c =? 46)%N then mantissa true digits places l'
      else if (c =? 45)%N then mantissa afterPoint digits places l'
      else (digits, places, l)
  end.

Fixpoint digitsValue (acc : N) (l : str) : N :=
  match l with
  | [] => acc
  | c :: l' => digitsValue (acc * 10 + (c - 48))%N l'
  end.

(** The exponent spelled by what follows the mantissa. *)
Definition exponent (l : str) : Z :=
  match l with
  | [] => 0%Z
  | _ :: l' =>
      match l' with
      | g :: ds =>
          if (g =? 45)%N then (- Z.of_N (digitsValue 0 ds))%Z
          else if (g =? 43)%N then Z.of_N (digitsValue 0 ds)
          else Z.of_N (digitsValue 0 l')
      | [] => 0%Z
      end
  end.

(** Whether the number a lexeme denotes is the double zero.  The lexeme
    stands for [digits * 10 ^ k]; rounded to the nearest double, ties to
    even, this is zero exactly when it is at most [2 ^ -1075], half of
    the least positive double. *)
Definition roundsToZero (lexeme : str) : bool :=
  let '(digits, places, rest) := mantissa false 0 0 lexeme in
  let k := (exponent rest - Z.of_N places)%Z in
  (digits =? 0)%N
  || ((k <? 0)%Z && (Z.of_N digits * 2 ^ 1075 <=? 10 ^ (- k))%Z).

(** [!!v] for a decoded value. *)
Definition truthy (v : value) : bool :=
  match v with
  | Null => false
  | Bool b => b
  | Number l => negb (roundsToZero l)
  | String s => nonEmpty s
  | Array _ => true
  | Object _ => true
  end.

End JSON.

(** ** [encodeURIComponent]

    Every code unit outside the unreserved set is replaced by the
    percent-escapes of the UTF-8 encoding of its code point; a surrogate
    that is not part of a pair makes the call throw. *)

Definition uriUnreserved (c : code_unit) : bool :=
  (((65 <=? c) && (c <=? 90)) || ((97 <=? c) && (c <=? 122))
   || ((48 <=? c) && (c <=? 57))
   || (c =? 45) || (c =? 95) || (c =? 46) || (c =? 33) || (c =? 126)
   || (c =? 42) || (c =? 39) || (c =? 40) || (c =? 41))%N.

Definition hexDigit (n : N) : code_unit :=
  (if n <? 10 then 48 + n else 55 + n)%N.

Definition percent (byte : N) : str :=
  [37%N; hexDigit (byte / 16); hexDigit (byte mod 16)].

Definition utf8 (cp : N) : list N :=
  (if cp <? 128 then [cp]
   else if cp <? 2048 then [192 + cp / 64; 128 + cp mod 64]
   else if cp <? 65536 then
     [224 + cp / 4096; 128 + (cp / 64) mod 64; 128 + cp mod 64]
   else
     [240 + cp / 262144; 128 + (cp / 4096) mod 64;
      128 + (cp / 64) mod 64; 128 + cp mod 64])%N.

Definition escapeCodePoint (cp : N) : str := flat_map percent (utf8 cp).

Definition isHighSurrogate (c : code_unit) : bool :=
  ((55296 <=? c) && (c <=? 56319))%N.
Definition isLowSurrogate (c : code_unit) : bool :=
  ((56320 <=? c) && (c <=? 57343))%N.

Fixpoint encodeURIComponent (s : str) : completion str :=
  match s with
  | [] => Normal []
  | c :: s' =>
      if uriUnreserved c then
        r <- encodeURIComponent s' ;; Normal (c :: r)
      else if isLowSurrogate c then Throw URIError
      else if isHighSurrogate c then
        match s' with
        | [] => Throw URIError
        | d :: s'' =>
            if isLowSurrogate d then
              r <- encodeURIComponent s'' ;;
              Normal (escapeCodePoint
                        ((c - 55296) * 1024 + (d - 56320) + 65536)%N ++ r)
            else Throw URIError
        end
      else
        r <- encodeURIComponent s' ;; Normal (escapeCodePoint c ++ r)
  end.

(** ** Property access and text coercion on decoded values

    The components declare the decoded payload as an [ErrandPlan], but
    never check it: what they hold and read is whatever [JSON.parse]
    gave.  An [undefined] is [None]. *)

(** [v.key] for a value [v] that is not [null] and a key that none of the
    built-in prototypes defines ([stops], [address]): the own property
    of an object, [undefined] on anything else. *)
Definition property (key : str) (v : JSON.value) : option JSON.value :=
  match v with
  | JSON.Object members => JSON.get key members
  | _ => None
  end.

Section Coercion.
(** [String(n)] for the number that a lexeme denotes. *)
Variable showNumber : str -> str.

(** [String(v)].  An array is the texts of its elements, [null] counting
    as empty, with commas between them.  An object is
    [[object Object]], unless it has a member [toString] of its own:
    that member is not callable, the inherited [valueOf] gives back the
    object, and the coercion throws. *)
Fixpoint toText (v : JSON.value) : completion str :=
  match v with
  | JSON.Null => Normal (lit "null")
  | JSON.Bool true => Normal (lit "true")
  | JSON.Bool false => Normal (lit "false")
  | JSON.Number lexeme => Normal (showNumber lexeme)
  | JSON.String s => Normal s
  | JSON.Array elems =>
      parts <-
        (fix texts (l : list JSON.value) : completion (list str) :=
           match l with
           | [] => Normal []
           | e :: l' =>
               t <- match e with
                    | JSON.Null => Normal []
                    | _ => toText e
                    end ;;
               ts <- texts l' ;;
               Normal (t :: ts)
           end) elems ;;
      Normal (join (lit ",") parts)
  | JSON.Object members =>
      match JSON.get (lit "toString") members with
      | Some _ => Throw TypeError
      | None => Normal (lit "[object Object]")
      end
  end.

(** [String(x)] for a value that may be [undefined]. *)
Definition toTextOrUndefined (x : option JSON.value) : completion str :=
  match x with
  | Some v => toText v
  | None => Normal (lit "undefined")
  end.

End Coercion.

(** ** Data model *)

Inductive ParkingDifficulty := Easy | Moderate | Difficult.
Inductive CrowdLevel := Low | Medium | High.

Record ErrandStop := {
  id : str;
  name : str;
  address : str;
  category : str;
  reason : str;
  arrivalEstimate : str;
  parkingDifficulty : ParkingDifficulty;
  crowdLevel : CrowdLevel;
  googleMapsUrl : str;
  parkingAdvice : option str;
  trafficNote : option str
}.

Record Alternative := { original : str; suggested : str; benefit : str }.

(** The declared shape of a plan, which is the wire contract of the
    prompt.  The components read a decoded value as if it had this
    shape, but never check that it has. *)
Record ErrandPlan := {
  summary : str;
  stops : list ErrandStop;
  totalTime : str;
  efficiencyScore : Q;
  alternatives : option (list Alternative);
  householdSuggestions : option (list str);
  reasoning : str
}.

Record GroundingLink := { title : str; uri : str }.

Record Location := { lat : Q; lng : Q }.

(** What the components read of a response of the plan service: its text
    (which may be undefined) and the grounding chunks of its first
    candidate, [None] when any link of the optional chain is missing or the
    field is not an array.  A chunk, and its [maps] part, may be missing.
    The title and the reference of a chunk are strings where they are
    there, as the interface of the service declares them, so that the
    [String(...)] the components wrap around them changes nothing. *)
Record GroundingChunkMaps := {
  maps_title : option str;
  maps_uri : option str
}.

Record GroundingChunk := { maps : option GroundingChunkMaps }.

Record Response := {
  text : option str;
  groundingChunks : option (list (option GroundingChunk))
}.

(** The page state: one field per [useState] cell.  [J] is the type of the
    values the decoder yields; [plan] is [None] for the initial [null]. *)
Record State (J : Type) := {
  input : str;
  isListening : bool;
  isLoading : bool;
  plan : option J;
  groundingLinks : list GroundingLink;
  location : option Location;
  locationName : str;
  error : option str;
  history : list str
}.

(** The speech recogniser of the platform, as far as the components use
    it: what a call of [start] and of [stop] does. *)
Record SpeechRecognition := {
  start : completion unit;
  stop : completion unit
}.

(** What an asynchronous generation still knows of the state it was
    started in. *)
Record Request := { req_input : str; req_isReroute : bool }.

(** ** State updates *)

Section Setters.
Context {J : Type}.

(** The initial values of the cells; the two components differ in the
    label shown while the position is awaited. *)
Definition initialStateWith (label : str) : State J :=
  {| input := []; isListening := false; isLoading := false;
     plan := None; groundingLinks := []; location := None;
     locationName := label; error := None; history := [] |}.

Definition setInput (v : str) (st : State J) : State J :=
  {| input := v; isListening := isListening st; isLoading := isLoading st;
     plan := plan st; groundingLinks := groundingLinks st;
     location := location st; locationName := locationName st;
     error := error st; history := history st |}.

Definition setIsListening (v : bool) (st : State J) : State J :=
  {| input := input st; isListening := v; isLoading := isLoading st;
     plan := plan st; groundingLinks := groundingLinks st;
     location := location st; locationName := locationName st;
     error := error st; history := history st |}.

Definition setIsLoading (v : bool) (st : State J) : State J :=
  {| input := input st; isListening := isListening st; isLoading := v;
     plan := plan st; groundingLinks := groundingLinks st;
     location := location st; locationName := locationName st;
     error := error st; history := history st |}.

Definition setPlan (v : option J) (st : State J) : State J :=
  {| input := input st; isListening := isListening st;
     isLoading := isLoading st;
     plan := v; groundingLinks := groundingLinks st;
     location := location st; locationName := locationName st;
     error := error st; history := history st |}.

Definition setGroundingLinks (v : list GroundingLink) (st : State J)
  : State J :=
  {| input := input st; isListening := isListening st;
     isLoading := isLoading st;
     plan := plan st; groundingLinks := v;
     location := location st; locationName := locationName st;
     error := error st; history := history st |}.

Definition setLocation (v : option Location) (st : State J) : State J :=
  {| input := input st; isListening := isListening st;
     isLoading := isLoading st;
     plan := plan st; groundingLinks := groundingLinks st;
     location := v; locationName := locationName st;
     error := error st; history := history st |}.

Definition setLocationName (v : str) (st : State J) : State J :=
  {| input := input st; isListening := isListening st;
     isLoading := isLoading st;
     plan := plan st; groundingLinks := groundingLinks st;
     location := location st; locationName := v;
     error := error st; history := history st |}.

Definition setError (v : option str) (st : State J) : State J :=
  {| input := input st; isListening := isListening st;
     isLoading := isLoading st;
     plan := plan st; groundingLinks := groundingLinks st;
     location := location st; locationName := locationName st;
     error := v; history := history st |}.

(** [setHistory(prev => f(prev))] *)
Definition setHistory (f : list str -> list str) (st : State J)
  : State J :=
  {| input := input st; isListening := isListening st;
     isLoading := isLoading st;
     plan := plan st; groundingLinks := groundingLinks st;
     location := location st; locationName := locationName st;
     error := error st; history := f (history st) |}.

(** [a || b] on an optional string: [b] when [a] is missing or empty. *)
Definition orElse (a : option str) (b : str) : str :=
  match a with
  | Some s => if nonEmpty s then s else b
  | None => b
  end.

(** [ref?.m()]: the call is skipped when the reference is null. *)
Definition optionalCall {A} (ref : option A) (m : A -> completion unit)
  : completion unit :=
  match ref with
  | Some r => m r
  | None => Normal tt
  end.

(** *** Handlers that are the same in both components *)

(** [recognition.onresult] *)
Definition onresult (transcript : str) (st : State J) : State J :=
  let st1 :=
    setInput (if nonEmpty (input st)
              then input st ++ lit ", " ++ transcript
              else transcript) st in
  setIsListening false st1.

(** [recognition.onerror] *)
Definition onerror (st : State J) : State J :=
  setError (Some (lit "Voice recognition error. Check microphone settings."))
    (setIsListening false st).

(** The success callback of [getCurrentPosition]; [toFixed3] renders a
    number with three decimals. *)
Definition onPosition (toFixed3 : Q -> str) (coords : Location)
    (st : State J) : State J :=
  setLocationName (toFixed3 (lat coords) ++ lit ", " ++ toFixed3 (lng coords))
    (setLocation (Some coords) st).

(** [toggleListening]: the state it leaves, and whether it raises. *)
Definition toggleListening (recognitionRef : option SpeechRecognition)
    (st : State J) : State J * completion unit :=
  if isListening st then
    match optionalCall recognitionRef stop with
    | Normal _ => (setIsListening false st, Normal tt)
    | Throw e => (st, Throw e)
    end
  else
    let st1 := setError None st in
    match optionalCall recognitionRef start with
    | Normal _ => (setIsListening true st1, Normal tt)
    | Throw _ =>
        (setError (Some (lit "Microphone access is unavailable.")) st1,
         Normal tt)
    end.

(** The guard and the two updates that [generatePlan] makes before it
    awaits the service: [None] when the guard returns at once. *)
Definition generatePlan_begin (isReroute : bool) (st : State J)
  : option (State J * Request) :=
  if negb (nonEmpty (trim (input st))) && negb isReroute then None
  else Some (setError None (setIsLoading true st),
             {| req_input := input st; req_isReroute := isReroute |}).

(** The three updates at the end of the [try] block. *)
Definition commit (req : Request) (parsedPlan : J)
    (sources : list GroundingLink) (st : State J) : State J :=
  let st1 := setGroundingLinks sources (setPlan (Some parsedPlan) st) in
  if req_isReroute req then st1
  else setHistory (fun prev => firstn 5 (req_input req :: prev)) st1.

End Setters.

Definition fallbackLocation : Location :=
  {| lat := 37.7749%Q; lng := (-122.4194)%Q |}.

Definition OPEN_BRACE : code_unit := 123%N.
Definition CLOSE_BRACE : code_unit := 125%N.

(** ** The component [ErrandOS] (src/index.tsx) *)

Module ErrandOS.
Section Component.
Context {J : Type}.
(** [JSON.parse], and the truthiness of what it yields. *)
Variable JSON_parse : str -> completion J.
Variable truthy : J -> bool.

Definition initialState : State J := initialStateWith (lit "Locating...").

(** [extractJSON]; the outer [option] is the [null] it returns. *)
Definition extractJSON (text : option str) : completion (option J) :=
  try_catch
    (t <- match text with
          | Some t => Normal t
          | None => Throw TypeError
          end ;;
     let cleanText :=
       trim (removeAll (lit "```") (removeAll (lit "```json") t)) in
     let jsonStart := indexOf cleanText OPEN_BRACE in
     let jsonEnd := (lastIndexOf cleanText CLOSE_BRACE + 1)%Z in
     if (jsonStart =? -1)%Z || (jsonEnd =? 0)%Z then Normal None
     else
       v <- JSON_parse (substring cleanText jsonStart jsonEnd) ;;
       Normal (Some v))
    (fun e => Normal None).

(** The error callback of [getCurrentPosition]. *)
Definition onPositionError (st : State J) : State J :=
  setLocationName (lit "San Francisco, CA")
    (setLocation (Some fallbackLocation) st).

(** The body of [chunks.forEach]. *)
Definition pushSource (chunk : option GroundingChunk)
  : list GroundingLink :=
  match chunk with
  | Some {| maps := Some m |} =>
      match maps_uri m with
      | Some u =>
          if nonEmpty u
          then [{| title := orElse (maps_title m) (lit "Map Location");
                   uri := u |}]
          else []
      | None => []
      end
  | _ => []
  end.

Definition collectSources (response : Response) : list GroundingLink :=
  match groundingChunks response with
  | Some chunks => flat_map pushSource chunks
  | None => []
  end.

Definition noPlanData : str :=
  lit "Critical: AI response contained no valid plan data. Please try again with more specific details.".

(** The [try] block of [generatePlan] from the point where the service
    has answered ([Normal]) or failed ([Throw]). *)
Definition attempt (service : completion Response)
  : completion (J * list GroundingLink) :=
  response <- service ;;
  parsed <- extractJSON (text response) ;;
  match parsed with
  | Some parsedPlan =>
      if truthy parsedPlan
      then Normal (parsedPlan, collectSources response)
      else Throw (Error noPlanData)
  | None => Throw (Error noPlanData)
  end.

(** The rest of [generatePlan]: the end of [try], [catch], [finally].
    The [catch] block reads [err.message]: on a thrown [null] or
    [undefined] that read throws in its turn, so no message is set;
    [finally] runs all the same. *)
Definition generatePlan_settle (req : Request)
    (service : completion Response) (st : State J) : State J :=
  let st1 :=
    match attempt service with
    | Normal (parsedPlan, sources) => commit req parsedPlan sources st
    | Throw Nullish => st
    | Throw (Thrown _ message) =>
        setError
          (Some (orElse message (lit "Spatial processing interrupted.")))
          st
    end in
  setIsLoading false st1.

(** [generatePlan(isReroute)], run to its end with no other event in
    between. *)
Definition generatePlan (isReroute : bool) (service : completion Response)
    (st : State J) : State J :=
  match generatePlan_begin isReroute st with
  | None => st
  | Some (st1, req) => generatePlan_settle req service st1
  end.

End Component.
End ErrandOS.

(** ** The component [ErrandOptimizer] (the second component file) *)

Module ErrandOptimizer.
Section Component.
Context {J : Type}.
Variable JSON_parse : str -> completion J.

Definition initialState : State J :=
  initialStateWith (lit "Detecting location...").

(** The error callback of [getCurrentPosition]. *)
Definition onPositionError (st : State J) : State J :=
  setLocationName (lit "San Francisco, CA")
    (setLocation (Some fallbackLocation)
       (setError
          (Some (lit "Location access denied. Routing from default hub (San Francisco)."))
          st)).

(** The lines of [generatePlan] that cut the JSON text out of the
    response text and decode it. *)
Definition parseResponseText (responseText : option str) : completion J :=
  let text := orElse responseText [] in
  let jsonStart := indexOf text OPEN_BRACE in
  let jsonEnd := (lastIndexOf text CLOSE_BRACE + 1)%Z in
  let jsonString := substring text jsonStart jsonEnd in
  if negb (nonEmpty jsonString)
  then Throw (Error (lit "Critical: AI response contained no valid plan data."))
  else JSON_parse jsonString.

(** The body of [chunks.forEach]. *)
Definition pushSource (chunk : option GroundingChunk)
  : list GroundingLink :=
  match chunk with
  | Some {| maps := Some m |} =>
      match maps_title m, maps_uri m with
      | Some t, Some u =>
          if nonEmpty t && nonEmpty u
          then [{| title := t; uri := u |}]
          else []
      | _, _ => []
      end
  | _ => []
  end.

Definition collectSources (response : Response) : list GroundingLink :=
  match groundingChunks response with
  | Some chunks => flat_map pushSource chunks
  | None => []
  end.

Definition attempt (service : completion Response)
  : completion (J * list GroundingLink) :=
  response <- service ;;
  parsedPlan <- parseResponseText (text response) ;;
  Normal (parsedPlan, collectSources response).

Definition generatePlan_settle (req : Request)
    (service : completion Response) (st : State J) : State J :=
  let st1 :=
    match attempt service with
    | Normal (parsedPlan, sources) => commit req parsedPlan sources st
    | Throw err =>
        setError
          (Some (lit "Spatial processing interrupted. Verify errand descriptions and try again."))
          st
    end in
  setIsLoading false st1.

Definition generatePlan (isReroute : bool) (service : completion Response)
    (st : State J) : State J :=
  match generatePlan_begin isReroute st with
  | None => st
  | Some (st1, req) => generatePlan_settle req service st1
  end.

End Component.
End ErrandOptimizer.

(** ** The directions link (the same function in both components) *)

Section DirectionsLink.
(** [Number::toString] on a coordinate, and [String(n)] for the number
    that a lexeme of the payload denotes. *)
Variable Number_toString : Q -> str.
Variable showNumber : str -> str.

Definition base : str := lit "https://www.google.com/maps/dir/".

(** [`${location?.lat}`] *)
Definition showCoordinate (c : option Q) : str :=
  match c with
  | Some q => Number_toString q
  | None => lit "undefined"
  end.

(** [String(s.address)] for an element [s] of the stop array: the read
    throws on [null]. *)
Definition addressText (s : JSON.value) : completion str :=
  match s with
  | JSON.Null => Throw TypeError
  | _ => toTextOrUndefined showNumber (property (lit "address") s)
  end.

(** The callback of [plan.stops.map]. *)
Definition escapeStop (s : JSON.value) : completion str :=
  a <- addressText s ;; encodeURIComponent a.

(** [getMultiStopMapsUrl] on the value the plan cell holds.  A truthy
    [stops] that is not an array has no callable [map], so the call
    throws. *)
Definition getMultiStopMapsUrl (st : State JSON.value) : completion str :=
  match plan st with
  | None => Normal (lit "#")
  | Some p =>
      if negb (JSON.truthy p) then Normal (lit "#")
      else
        match property (lit "stops") p with
        | None => Normal (lit "#")
        | Some stops =>
            if negb (JSON.truthy stops) then Normal (lit "#")
            else
              let start :=
                showCoordinate (option_map lat (location st)) ++ lit ","
                ++ showCoordinate (option_map lng (location st))
                ++ lit "/" in
              match stops with
              | JSON.Array elems =>
                  escaped <- mapM escapeStop elems ;;
                  let stopsStr := join (lit "/") escaped in
                  Normal (base ++ start ++ stopsStr)
              | _ => Throw TypeError
              end
        end
  end.

End DirectionsLink.

(** ** Sessions

    A session of either component is a sequence of events, each handled to
    its end before the next.  A generation is either run as one event, or
    split at its [await] into [Begin] and [Settle], with other events in
    between; a [Settle] may carry any request. *)

Inductive component := OS | Optimizer.

Inductive event :=
| Edit (v : str)
| SpeechResult (transcript : str)
| SpeechFailure
| Position (coords : Location)
| PositionError
| Toggle
| Generate (isReroute : bool) (service : completion Response)
| Begin (isReroute : bool)
| Settle (req : Request) (service : completion Response).

Section Session.
Context {J : Type}.
Variable JSON_parse : str -> completion J.
Variable truthy : J -> bool.
Variable recognitionRef : option SpeechRecognition.
Variable toFixed3 : Q -> str.

Definition initial (c : component) : State J :=
  match c with
  | OS => ErrandOS.initialState
  | Optimizer => ErrandOptimizer.initialState
  end.

Definition attempt (c : component) (service : completion Response)
  : completion (J * list GroundingLink) :=
  match c with
  | OS => ErrandOS.attempt JSON_parse truthy service
  | Optimizer => ErrandOptimizer.attempt JSON_parse service
  end.

Definition settle (c : component) (req : Request)
    (service : completion Response) (st : State J) : State J :=
  match c with
  | OS => ErrandOS.generatePlan_settle JSON_parse truthy req service st
  | Optimizer => ErrandOptimizer.generatePlan_settle JSON_parse req service st
  end.

Definition generate (c : component) (isReroute : bool)
    (service : completion Response) (st : State J) : State J :=
  match c with
  | OS => ErrandOS.generatePlan JSON_parse truthy isReroute service st
  | Optimizer => ErrandOptimizer.generatePlan JSON_parse isReroute service st
  end.

Definition step (c : component) (st : State J) (ev : event) : State J :=
  match ev with
  | Edit v => setInput v st
  | SpeechResult transcript => onresult transcript st
  | SpeechFailure => onerror st
  | Position coords => onPosition toFixed3 coords st
  | PositionError =>
      match c with
      | OS => ErrandOS.onPositionError st
      | Optimizer => ErrandOptimizer.onPositionError st
      end
  | Toggle => fst (toggleListening recognitionRef st)
  | Generate isReroute service => generate c isReroute service st
  | Begin isReroute =>
      match generatePlan_begin isReroute st with
      | Some (st1, _) => st1
      | None => st
      end
  | Settle req service => settle c req service st
  end.

Definition run (c : component) (evs : list event) (st : State J)
  : State J :=
  fold_left (step c) evs st.

(** A request text typed in and submitted as an initial generation. *)
Record generation := {
  gen_input : str;
  gen_service : completion Response
}.

Definition submit (g : generation) : list event :=
  [Edit (gen_input g); Generate false (gen_service g)].

(** The request passes the guard and its [try] block runs to the end. *)
Definition succeeds (c : component) (g : generation) : Prop :=
  nonEmpty (trim (gen_input g)) = true /\
  exists parsedPlan sources,
    attempt c (gen_service g) = Normal (parsedPlan, sources).

End Session.

(** ** Vocabulary of the statements *)

Definition fresh (c : code_unit) (pat : str) : bool :=
  forallb (fun p => negb (p =? c)%N) pat.

(** A JSON object text: an opening brace, a middle, a closing brace. *)
Definition braced (mid : str) : str := OPEN_BRACE :: mid ++ [CLOSE_BRACE].

Definition FENCE : str := lit "```".
Definition FENCE_JSON : str := lit "```json".

(** The text [extractJSON] searches, and the substring it hands to the
    decoder. *)
Definition cleaned (t : str) : str :=
  trim (removeAll FENCE (removeAll FENCE_JSON t)).

Definition jsonSpan (t : str) : str :=
  substring (cleaned t) (indexOf (cleaned t) OPEN_BRACE)
    (lastIndexOf (cleaned t) CLOSE_BRACE + 1)%Z.

(** What [extractJSON] returns, with the [try] and [catch] resolved. *)
Definition extracted (J : Type) (JSON_parse : str -> completion J)
    (text : option str) : option J :=
  match text with
  | None => None
  | Some t =>
      if ((indexOf (cleaned t) OPEN_BRACE =? -1)
          || (lastIndexOf (cleaned t) CLOSE_BRACE + 1 =? 0))%Z
      then None
      else
        match JSON_parse (jsonSpan t) with
        | Normal v => Some v
        | Throw _ => None
        end
  end.

(** [catch] and [finally] after a failed [try] block. *)
Definition shownError (c : component) (err : exn) (shown : option str)
  : option str :=
  match c, err with
  | OS, Nullish => shown
  | OS, Thrown _ message =>
      Some (orElse message (lit "Spatial processing interrupted."))
  | Optimizer, _ =>
      Some (lit "Spatial processing interrupted. Verify errand descriptions and try again.")
  end.

Definition settleFailure (J : Type) (c : component) (err : exn)
    (st : State J)
  : State J :=
  setIsLoading false (setError (shownError c err (error st)) st).

(** The reference of a chunk that [if (chunk?.maps?.uri)] accepts. *)
Definition usableUri (chunk : option GroundingChunk) : option str :=
  match chunk with
  | Some {| maps := Some m |} =>
      match maps_uri m with
      | Some u => if nonEmpty u then Some u else None
      | None => None
      end
  | _ => None
  end.

Definition chunkTitle (chunk : option GroundingChunk) : option str :=
  match chunk with
  | Some {| maps := Some m |} => maps_title m
  | _ => None
  end.

Definition SLASH : code_unit := 47%N.

(** A plan carries stops when its [stops] is there and truthy; a plan
    that is itself falsy has no [stops]. *)
Definition carriesStops (p : JSON.value) : bool :=
  match property (lit "stops") p with
  | Some stops => JSON.truthy stops
  | None => false
  end.

(** ** Sample data *)

Definition NEWLINE : str := [10%N].

(** The response text of the example scenario of the specification. *)
Definition exampleObject : str :=
  jlit "{'summary':'ok','stops':[],'totalTime':'0m','efficiencyScore':100,'reasoning':'none needed'}".

Definition exampleResponseText : str :=
  (lit "Here you go:" ++ NEWLINE ++ lit "```json" ++ NEWLINE)
  ++ exampleObject ++ (NEWLINE ++ lit "```").

Definition examplePlan : JSON.value :=
  JSON.Object
    [ (lit "summary", JSON.String (lit "ok"));
      (lit "stops", JSON.Array []);
      (lit "totalTime", JSON.String (lit "0m"));
      (lit "efficiencyScore", JSON.Number (lit "100"));
      (lit "reasoning", JSON.String (lit "none needed")) ].

Definition untitledChunk : option GroundingChunk :=
  Some {| maps := Some {| maps_title := None;
                          maps_uri := Some (lit "https://maps.google.com/?cid=1") |} |}.

(** Rendering of the two fallback coordinates. *)
Definition showFallback (q : Q) : str :=
  if Qeq_bool q 37.7749%Q then lit "37.7749"
  else if Qeq_bool q (-122.4194)%Q then lit "-122.4194"
  else lit "NaN".

(** [String(n)] on number lexemes that are in shortest decimal form
    already, such as [100]. *)
Definition showLexeme (lexeme : str) : str := lexeme.

Definition demoStop (n a : string) : JSON.value :=
  JSON.Object
    [ (lit "id", JSON.String (lit n));
      (lit "name", JSON.String (lit n));
      (lit "address", JSON.String (lit a));
      (lit "category", JSON.String (lit "Grocery")) ].

Definition demoPlan (stops : JSON.value) : JSON.value :=
  JSON.Object
    [ (lit "summary", JSON.String (lit "ok"));
      (lit "stops", stops);
      (lit "totalTime", JSON.String (lit "0m")) ].

(** A payload that is an object with a summary only. *)
Definition summaryOnly : JSON.value :=
  JSON.Object [ (lit "summary", JSON.String (lit "ok")) ].

Definition holding (J : Type) (p : J) : State J :=
  {| input := lit "milk, stamps"; isListening := false; isLoading := false;
     plan := Some p;
     groundingLinks := [{| title := lit "Map Location";
                           uri := lit "https://maps.google.com/?cid=1" |}];
     location := Some fallbackLocation;
     locationName := lit "San Francisco, CA"; error := None;
     history := [lit "milk, stamps"] |}.

(** A response without any plan data, and one that carries the example
    plan. *)
Definition noJsonResponse : completion Response :=
  Normal {| text := Some (lit "Sorry, I could not plan that.");
            groundingChunks := None |}.

Definition exampleResponse : completion Response :=
  Normal {| text := Some exampleResponseText; groundingChunks := None |}.

Definition submitted (request : string) :=
  {| gen_input := lit request; gen_service := exampleResponse |}.

(** ** The outbound request

    The part of [generatePlan] that runs before the service is awaited:
    the prompt and the parameters of [generateContent].  [now] is the
    text of [new Date().toLocaleTimeString()]. *)

Section RequestComposer.
Context {J : Type}.
Variable Number_toString : Q -> str.
Variable now : str.

Definition promptOS (st : State J) (isReroute : bool) : str :=
  join NEWLINE
   [ lit "";
     jlit "        User Request: '" ++ input st ++ jlit "'";
     lit "        Origin Coords: " ++ showCoordinate Number_toString (option_map lat (location st))
    ++ lit ", " ++ showCoordinate Number_toString (option_map lng (location st));
     lit "        Current Time: " ++ now;
     lit "        Operational Mode: " ++ (if isReroute then lit "REROUTE" else lit "PLAN_INIT");
     lit "";
     lit "        Task: Optimize a multi-stop errand trip. ";
     lit "        1. Use Google Maps to find exact business names and addresses.";
     lit "        2. Sequence them to minimize total driving time.";
     lit "        3. Include parking difficulty (Easy/Moderate/Difficult) and crowd levels (Low/Medium/High).";
     lit "        4. Suggest household coordination.";
     lit "";
     lit "        IMPORTANT: Return ONLY a JSON object. No markdown, no conversational filler.";
     lit "        Format:";
     lit "        {";
     jlit "          'summary': 'trip summary',";
     jlit "          'stops': [{ 'id': '1', 'name': 'Store', 'address': 'Address', 'category': 'Type', 'reason': 'why', 'arrivalEstimate': 'HH:MM AM/PM', 'parkingDifficulty': 'Easy', 'crowdLevel': 'Low', 'googleMapsUrl': 'url', 'parkingAdvice': 'tips', 'trafficNote': 'notes' }],";
     jlit "          'totalTime': 'string',";
     jlit "          'efficiencyScore': 95,";
     jlit "          'alternatives': [],";
     jlit "          'householdSuggestions': ['suggestion'],";
     jlit "          'reasoning': 'spatial logic'";
     lit "        }";
     lit "      " ].

Definition promptOptimizer (st : State J) (isReroute : bool) : str :=
  join NEWLINE
   [ lit "";
     jlit "        User Request: '" ++ input st ++ jlit "'";
     lit "        Origin Coords: " ++ showCoordinate Number_toString (option_map lat (location st))
    ++ lit ", " ++ showCoordinate Number_toString (option_map lng (location st));
     lit "        Current Time: " ++ now;
     lit "        Operational Mode: " ++ (if isReroute
       then lit "REROUTE (Dynamic adjustment for traffic and business closures)"
       else lit "PLAN_INIT");
     lit "";
     lit "        Act as ErrandOS, a high-performance spatial intelligence engine. ";
     lit "        Perform these steps:";
     lit "        1. Find the best physical locations for the requested errands using Google Maps tool.";
     lit "        2. Sequence them for maximum fuel/time efficiency (Traveling Salesman optimization).";
     lit "        3. Assess parking and crowd density based on the current time of day.";
     lit "        4. Suggest household coordination: which items could be handled by another family member.";
     lit "        5. Provide a deep reasoning for the specific order chosen.";
     lit "";
     lit "        Return strictly valid JSON in this format:";
     lit "        {";
     jlit "          'summary': 'Concise summary',";
     jlit "          'stops': [{";
     jlit "            'id': 'unique_id',";
     jlit "            'name': 'Exact Business Name',";
     jlit "            'address': 'Street, City',";
     jlit "            'category': 'e.g., Grocery',";
     jlit "            'reason': 'Why this location was picked',";
     jlit "            'arrivalEstimate': 'Expected time',";
     jlit "            'parkingDifficulty': 'Easy/Moderate/Difficult',";
     jlit "            'crowdLevel': 'Low/Medium/High',";
     jlit "            'googleMapsUrl': 'maps_link',";
     jlit "            'parkingAdvice': 'Specific spot tips',";
     jlit "            'trafficNote': 'Specific delay notes'";
     lit "          }],";
     jlit "          'totalTime': 'Duration string',";
     jlit "          'efficiencyScore': 0-100,";
     jlit "          'alternatives': [{ 'original': 'target', 'suggested': 'optimized choice', 'benefit': 'e.g., saves 10 mins' }],";
     jlit "          'householdSuggestions': ['Strategy for family help'],";
     jlit "          'reasoning': 'Spatial logic walkthrough'";
     lit "        }";
     lit "      " ].

Definition prompt (c : component) (st : State J) (isReroute : bool) : str :=
  match c with
  | OS => promptOS st isReroute
  | Optimizer => promptOptimizer st isReroute
  end.

(** [x || d] on an optional number: [d] when [x] is missing or zero. *)
Definition orNumber (x : option Q) (d : Q) : Q :=
  match x with
  | Some q => if Qeq_bool q 0 then d else q
  | None => d
  end.

(** The argument of [ai.models.generateContent]; its [tools] entry is the
    constant [[{ googleMaps: {} }]]. *)
Record GenerateContentParameters := {
  model : str;
  contents : str;
  latitude : Q;
  longitude : Q
}.

Definition generateContentParameters (c : component) (st : State J)
    (isReroute : bool) : GenerateContentParameters :=
  {| model := lit "gemini-2.5-flash";
     contents := prompt c st isReroute;
     latitude := orNumber (option_map lat (location st)) 37.7749%Q;
     longitude := orNumber (option_map lng (location st)) (-122.4194)%Q |}.

End RequestComposer.

(** ** The page and its controls

    The handlers as the view wires them.  The submit button is disabled
    while [isLoading] holds or the text is blank; the reroute button is
    only rendered with a truthy plan; a click on a history entry puts that
    entry into the text field.  [inFlight] lists the requests whose answer
    is still awaited. *)

Definition submitDisabled (J : Type) (st : State J) : bool :=
  isLoading st || negb (nonEmpty (trim (input st))).

Record Page (J : Type) := {
  view : State J;
  inFlight : list Request
}.

Inductive interaction :=
| TypeText (v : str)
| Recall (i : nat)
| ClickMic
| ClickSubmit
| ClickReroute
| VoiceResult (transcript : str)
| VoiceError
| PositionFound (coords : Location)
| PositionDenied
| Answer (k : nat) (service : completion Response).

Fixpoint removeNth (A : Type) (k : nat) (l : list A) : list A :=
  match l, k with
  | [], _ => []
  | _ :: l', O => l'
  | x :: l', S k' => x :: removeNth k' l'
  end.

Section Pages.
Context {J : Type}.
Variable JSON_parse : str -> completion J.
Variable truthy : J -> bool.
Variable recognitionRef : option SpeechRecognition.
Variable toFixed3 : Q -> str.

(** The test [plan ?] that guards the plan panel in the view.  It says
    that the panel is attempted, not that it renders: the render reads
    [plan.stops] and calls [getMultiStopMapsUrl] without a guard. *)
Definition planTruthy (st : State J) : bool :=
  match plan st with
  | Some p => truthy p
  | None => false
  end.

(** A call of [generatePlan] up to its [await]. *)
Definition launch (isReroute : bool) (pg : Page J) : Page J :=
  match generatePlan_begin isReroute (view pg) with
  | Some (st1, req) => {| view := st1; inFlight := inFlight pg ++ [req] |}
  | None => pg
  end.

Definition handled (c : component) (ev : event) (pg : Page J) : Page J :=
  {| view := step JSON_parse truthy recognitionRef toFixed3 c (view pg) ev;
     inFlight := inFlight pg |}.

Definition interact (c : component) (pg : Page J) (a : interaction)
  : Page J :=
  match a with
  | TypeText v => handled c (Edit v) pg
  | Recall i =>
      match nth_error (history (view pg)) i with
      | Some h => handled c (Edit h) pg
      | None => pg
      end
  | ClickMic => handled c Toggle pg
  | ClickSubmit => if submitDisabled (view pg) then pg else launch false pg
  | ClickReroute => if planTruthy (view pg) then launch true pg else pg
  | VoiceResult transcript => handled c (SpeechResult transcript) pg
  | VoiceError => handled c SpeechFailure pg
  | PositionFound coords => handled c (Position coords) pg
  | PositionDenied => handled c PositionError pg
  | Answer k service =>
      match nth_error (inFlight pg) k with
      | Some req =>
          {| view := settle JSON_parse truthy c req service (view pg);
             inFlight := removeNth k (inFlight pg) |}
      | None => pg
      end
  end.

Definition firstPage (c : component) : Page J :=
  {| view := initial c; inFlight := [] |}.

Definition browse (c : component) (acts : list interaction) : Page J :=
  fold_left (interact c) acts (firstPage c).

End Pages.

(** ** Vocabulary of the further statements *)

(** The transcripts from the first non-empty one on. *)
Fixpoint dropEmpty (ts : list str) : list str :=
  match ts with
  | [] :: ts' => dropEmpty ts'
  | _ => ts
  end.

Definition isSurrogate (c : code_unit) : bool :=
  isHighSurrogate c || isLowSurrogate c.

Definition surrogateFree (s : str) : bool :=
  forallb (fun c => negb (isSurrogate c)) s.


Definition MICROPHONE_UNAVAILABLE : str :=
  lit "Microphone access is unavailable.".

Definition workingRecognition : SpeechRecognition :=
  {| start := Normal tt; stop := Normal tt |}.

Definition deniedRecognition : SpeechRecognition :=
  {| start := Throw (Thrown "NotAllowedError"
                             (Some (lit "permission denied")));
     stop := Normal tt |}.


(** What the pages of a session keep true. *)
Definition pageInvariant (J : Type) (pg : Page J) : Prop :=
  Forall (fun h => nonEmpty (trim h) = true) (history (view pg)) /\
  Forall (fun r => req_isReroute r = false ->
                   nonEmpty (trim (req_input r)) = true) (inFlight pg) /\
  (isLoading (view pg) = true -> inFlight pg <> []).

Definition equatorLocation : Location := {| lat := 0%Q; lng := 9.45%Q |}.
Definition meridianLocation : Location := {| lat := 51.4779%Q; lng := 0%Q |}.

Definition BACKTICK : code_unit := 96%N.

(** The descent, where it returns, has read something. *)
Definition consumes (o : JSON.outcome JSON.value) (s : str) : Prop :=
  match o with
  | JSON.Ok _ r => (length r < length s)%nat
  | _ => True
  end.

(** * Properties *)

(** ** Facts on the string primitives *)

Lemma startsWith_length pat : forall s,
  startsWith pat s = true -> (length pat <= length s)%nat.
Proof.
  induction pat as [|p pat IH]; intros [|c s] H; simpl in *;
    try lia; try discriminate.
  apply andb_true_iff in H as [_ H]. apply IH in H. lia.
Qed.

Lemma startsWith_app_fresh c pat : forall a b,
  fresh c pat = true ->
  startsWith pat (a ++ c :: b) = startsWith pat a.
Proof.
  induction pat as [|p pat IH]; intros a b Hf; [now destruct a|].
  simpl in Hf. apply andb_true_iff in Hf as [Hp Hf].
  destruct a as [|x a]; simpl.
  - apply negb_true_iff in Hp. now rewrite Hp.
  - now rewrite IH.
Qed.

Lemma removeAll_from_app_fresh c pat b : forall a k,
  fresh c pat = true -> (k <= length a)%nat ->
  removeAll_from pat k (a ++ c :: b)
  = removeAll_from pat k a ++ removeAll_from pat 0 (c :: b).
Proof.
  induction a as [|x a IH]; intros k Hf Hk.
  - simpl in Hk. now replace k with 0%nat by lia.
  - destruct k as [|k].
    + cbn [app removeAll_from].
      change (x :: a ++ c :: b) with ((x :: a) ++ c :: b).
      rewrite startsWith_app_fresh by assumption.
      destruct (startsWith pat (x :: a)) eqn:Hs.
      * apply startsWith_length in Hs. simpl in Hs.
        apply IH; [assumption | lia].
      * simpl. f_equal. apply IH; [assumption | lia].
    + cbn [app removeAll_from]. apply IH; [assumption | simpl in Hk; lia].
Qed.

Lemma removeAll_from_head_fresh c pat b :
  pat <> [] -> fresh c pat = true ->
  removeAll_from pat 0 (c :: b) = c :: removeAll_from pat 0 b.
Proof.
  intros Hne Hf. destruct pat as [|p pat]; [congruence|].
  simpl in Hf. apply andb_true_iff in Hf as [Hp _].
  apply negb_true_iff in Hp. cbn [removeAll_from startsWith].
  now rewrite Hp.
Qed.

Lemma removeAll_from_absent pat : forall s,
  occurs pat s = false -> removeAll_from pat 0 s = s.
Proof.
  induction s as [|x s IH]; intros H; [reflexivity|].
  cbn [occurs] in H. apply orb_false_iff in H as [H1 H2].
  cbn [removeAll_from]. rewrite H1. f_equal. now apply IH.
Qed.

Lemma removeAll_from_In x pat : forall s k,
  In x (removeAll_from pat k s) -> In x s.
Proof.
  induction s as [|c s IH]; intros k H; [assumption|].
  cbn [removeAll_from] in H. destruct k as [|k].
  - destruct (startsWith pat (c :: s)).
    + right. eapply IH, H.
    + destruct H as [H|H]; [now left | right; eapply IH, H].
  - right. eapply IH, H.
Qed.

Lemma removeAll_In x pat s : In x (removeAll pat s) -> In x s.
Proof.
  destruct pat; [trivial|]. apply removeAll_from_In.
Qed.

Lemma trimStart_app_fresh c b : forall a,
  isWhiteSpace c = false ->
  trimStart (a ++ c :: b) = trimStart a ++ c :: b.
Proof.
  intros a Hc. induction a as [|x a IH]; simpl.
  - now rewrite Hc.
  - destruct (isWhiteSpace x); [assumption | reflexivity].
Qed.

Lemma trimStart_In x : forall s, In x (trimStart s) -> In x s.
Proof.
  induction s as [|c s IH]; simpl; [trivial|].
  destruct (isWhiteSpace c); [right; now apply IH | trivial].
Qed.

Lemma trimEnd_app_fresh c a b :
  isWhiteSpace c = false ->
  trimEnd (a ++ c :: b) = a ++ c :: trimEnd b.
Proof.
  intros Hc. unfold trimEnd.
  rewrite rev_app_distr. simpl rev. rewrite <- app_assoc. simpl app.
  rewrite trimStart_app_fresh by assumption.
  rewrite rev_app_distr. simpl rev. rewrite rev_involutive.
  now rewrite <- app_assoc.
Qed.

Lemma trimEnd_In x s : In x (trimEnd s) -> In x s.
Proof.
  unfold trimEnd. intros H. apply in_rev in H. apply trimStart_In in H.
  now apply in_rev.
Qed.

Lemma indexOf_from_fresh c b : forall a i,
  ~ In c a ->
  indexOf_from c i (a ++ c :: b) = (i + Z.of_nat (length a))%Z.
Proof.
  induction a as [|x a IH]; intros i Hn; simpl.
  - rewrite N.eqb_refl. lia.
  - destruct (N.eqb_spec x c) as [->|_]; [exfalso; apply Hn; now left|].
    rewrite IH; [lia | intros H; apply Hn; now right].
Qed.

Lemma lastIndexOf_from_absent c : forall s i found,
  ~ In c s -> lastIndexOf_from c i found s = found.
Proof.
  induction s as [|x s IH]; intros i found Hn; simpl; [reflexivity|].
  destruct (N.eqb_spec x c) as [->|_]; [exfalso; apply Hn; now left|].
  apply IH. intros H; apply Hn; now right.
Qed.

Lemma lastIndexOf_from_fresh c b : forall a i found,
  ~ In c b ->
  lastIndexOf_from c i found (a ++ c :: b) = (i + Z.of_nat (length a))%Z.
Proof.
  induction a as [|x a IH]; intros i found Hn; simpl.
  - rewrite N.eqb_refl, lastIndexOf_from_absent by assumption. lia.
  - rewrite IH by assumption. lia.
Qed.

Lemma substring_middle (a m b : str) :
  substring (a ++ m ++ b) (Z.of_nat (length a))
    (Z.of_nat (length a) + Z.of_nat (length m))
  = m.
Proof.
  unfold substring, clamp. rewrite !length_app.
  replace (Z.to_nat _) with (length m) by lia.
  replace (Z.to_nat _) with (length a) by lia.
  rewrite skipn_app, skipn_all, Nat.sub_diag. simpl.
  rewrite firstn_app, firstn_all, Nat.sub_diag. simpl.
  apply app_nil_r.
Qed.

Lemma startsWith_app_l p q : forall s,
  startsWith (p ++ q) s = true -> startsWith p s = true.
Proof.
  induction p as [|x p IH]; intros s H; [reflexivity|].
  destruct s as [|c s]; simpl in *; [discriminate|].
  apply andb_true_iff in H as [Hx H]. rewrite Hx. simpl. now apply IH.
Qed.

Lemma occurs_app_l p q : forall s,
  occurs p s = false -> occurs (p ++ q) s = false.
Proof.
  intros s H. destruct (occurs (p ++ q) s) eqn:E; [|reflexivity].
  rewrite <- H. clear H. induction s as [|c s IH]; cbn [occurs] in *.
  - symmetry. now apply startsWith_app_l with (q := q).
  - apply orb_true_iff in E as [E|E].
    + apply startsWith_app_l in E. now rewrite E.
    + rewrite <- IH by assumption. symmetry. apply orb_true_r.
Qed.

Lemma removeAll_around pat pre mid post :
  pat <> [] ->
  fresh OPEN_BRACE pat = true -> fresh CLOSE_BRACE pat = true ->
  occurs pat mid = false ->
  removeAll pat (pre ++ braced mid ++ post)
  = removeAll pat pre ++ braced mid ++ removeAll pat post.
Proof.
  intros Hne Ho Hc Hmid. destruct pat as [|p pat]; [congruence|].
  unfold removeAll, braced. cbn [app]. rewrite <- app_assoc. cbn [app].
  rewrite removeAll_from_app_fresh by (assumption || lia).
  rewrite (@removeAll_from_head_fresh OPEN_BRACE) by assumption.
  rewrite removeAll_from_app_fresh by (assumption || lia).
  rewrite (@removeAll_from_head_fresh CLOSE_BRACE) by assumption.
  rewrite (@removeAll_from_absent _ mid Hmid).
  now rewrite <- app_assoc.
Qed.

Lemma braced_app mid post :
  braced mid ++ post = OPEN_BRACE :: mid ++ CLOSE_BRACE :: post.
Proof. unfold braced. cbn [app]. now rewrite <- app_assoc. Qed.

Lemma app_braced_split pre mid post :
  pre ++ braced mid ++ post = (pre ++ OPEN_BRACE :: mid) ++ CLOSE_BRACE :: post.
Proof. rewrite braced_app, <- app_assoc. reflexivity. Qed.

Lemma trim_around pre mid post :
  trim (pre ++ braced mid ++ post)
  = trimStart pre ++ braced mid ++ trimEnd post.
Proof.
  unfold trim. rewrite braced_app.
  rewrite trimStart_app_fresh by reflexivity.
  rewrite <- braced_app, app_braced_split.
  rewrite trimEnd_app_fresh by reflexivity.
  now rewrite <- app_braced_split.
Qed.

(** Cutting from the first opening brace to the last closing brace. *)
Lemma cut_braced pre mid post :
  ~ In OPEN_BRACE pre -> ~ In CLOSE_BRACE post ->
  let s := pre ++ braced mid ++ post in
  let jsonStart := indexOf s OPEN_BRACE in
  let jsonEnd := (lastIndexOf s CLOSE_BRACE + 1)%Z in
  (0 <= jsonStart)%Z /\ (0 < jsonEnd)%Z /\
  substring s jsonStart jsonEnd = braced mid.
Proof.
  intros Hpre Hpost s jsonStart jsonEnd.
  assert (Hs : jsonStart = Z.of_nat (length pre)).
  { unfold jsonStart, indexOf, s. rewrite braced_app.
    rewrite indexOf_from_fresh by assumption. lia. }
  assert (He : jsonEnd
               = (Z.of_nat (length pre) + Z.of_nat (length (braced mid)))%Z).
  { unfold jsonEnd, lastIndexOf, s. rewrite app_braced_split.
    rewrite lastIndexOf_from_fresh by assumption.
    unfold braced. rewrite !length_app. cbn [length]. rewrite length_app.
    cbn [length]. lia. }
  rewrite Hs, He. repeat split; try lia.
  - unfold braced. cbn [length]. lia.
  - apply substring_middle.
Qed.

Lemma indexOf_from_absent c : forall s i,
  (0 <= i)%Z -> (indexOf_from c i s = -1)%Z <-> ~ In c s.
Proof.
  induction s as [|x s IH]; intros i Hi; simpl.
  - tauto.
  - destruct (N.eqb_spec x c) as [->|Hx].
    + split; [lia | intros H; exfalso; apply H; now left].
    + rewrite IH by lia. split; intros H; [intros [E|E]; tauto | tauto].
Qed.

(** ** The response parser *)

Lemma cleaned_around pre mid post :
  occurs FENCE mid = false ->
  cleaned (pre ++ braced mid ++ post)
  = trimStart (removeAll FENCE (removeAll FENCE_JSON pre))
    ++ braced mid
    ++ trimEnd (removeAll FENCE (removeAll FENCE_JSON post)).
Proof.
  intros Hmid. unfold cleaned.
  rewrite removeAll_around;
    [ | discriminate | reflexivity | reflexivity
      | change FENCE_JSON with (FENCE ++ lit "json");
        now apply occurs_app_l ].
  rewrite removeAll_around;
    [ | discriminate | reflexivity | reflexivity | assumption ].
  apply trim_around.
Qed.

Section Parser.
Context {J : Type}.
Variable JSON_parse : str -> completion J.

Lemma extractJSON_extracted text :
  ErrandOS.extractJSON JSON_parse text = Normal (extracted JSON_parse text).
Proof.
  destruct text as [t|]; [|reflexivity].
  unfold ErrandOS.extractJSON, extracted, jsonSpan. cbn [bind].
  fold FENCE FENCE_JSON. fold (cleaned t).
  destruct (_ || _)%bool; [reflexivity|].
  now destruct (JSON_parse _).
Qed.

Lemma extractJSON_around pre mid post :
  ~ In OPEN_BRACE pre -> ~ In CLOSE_BRACE post ->
  occurs FENCE mid = false ->
  ErrandOS.extractJSON JSON_parse (Some (pre ++ braced mid ++ post))
  = match JSON_parse (braced mid) with
    | Normal v => Normal (Some v)
    | Throw _ => Normal None
    end.
Proof.
  intros Hpre Hpost Hmid. rewrite extractJSON_extracted.
  unfold extracted, jsonSpan. rewrite cleaned_around by assumption.
  set (pre' := trimStart _). set (post' := trimEnd _).
  assert (Hpre' : ~ In OPEN_BRACE pre').
  { intros H. apply Hpre. subst pre'.
    now apply trimStart_In, removeAll_In, removeAll_In in H. }
  assert (Hpost' : ~ In CLOSE_BRACE post').
  { intros H. apply Hpost. subst post'.
    now apply trimEnd_In, removeAll_In, removeAll_In in H. }
  destruct (@cut_braced pre' mid post' Hpre' Hpost') as (Hs & He & Hcut).
  cbv zeta in Hs, He, Hcut. rewrite Hcut.
  replace (_ =? -1)%Z with false by (symmetry; apply Z.eqb_neq; lia).
  replace (_ =? 0)%Z with false by (symmetry; apply Z.eqb_neq; lia).
  now destruct (JSON_parse _).
Qed.

Lemma parseResponseText_around pre mid post :
  ~ In OPEN_BRACE pre -> ~ In CLOSE_BRACE post ->
  ErrandOptimizer.parseResponseText JSON_parse
    (Some (pre ++ braced mid ++ post))
  = JSON_parse (braced mid).
Proof.
  intros Hpre Hpost. unfold ErrandOptimizer.parseResponseText.
  assert (Ht : orElse (Some (pre ++ braced mid ++ post)) []
               = pre ++ braced mid ++ post).
  { unfold orElse. rewrite braced_app. now destruct pre. }
  rewrite Ht.
  destruct (@cut_braced pre mid post Hpre Hpost) as (_ & _ & Hcut).
  cbv zeta in Hcut. rewrite Hcut. reflexivity.
Qed.

(** No opening brace, or no closing brace: [extractJSON] returns [null]. *)
Lemma extractJSON_no_brace t :
  ~ In OPEN_BRACE t \/ ~ In CLOSE_BRACE t ->
  ErrandOS.extractJSON JSON_parse (Some t) = Normal None.
Proof.
  intros H. rewrite extractJSON_extracted. unfold extracted.
  assert (Hsub : forall x, In x (cleaned t) -> In x t).
  { intros x Hx. unfold cleaned in Hx.
    now apply trimEnd_In, trimStart_In, removeAll_In, removeAll_In in Hx. }
  destruct H as [H|H].
  - assert (E : indexOf (cleaned t) OPEN_BRACE = (-1)%Z).
    { apply indexOf_from_absent; [lia | intros Hx; apply H, Hsub, Hx]. }
    now rewrite E.
  - assert (E : lastIndexOf (cleaned t) CLOSE_BRACE = (-1)%Z).
    { apply lastIndexOf_from_absent. intros Hx; apply H, Hsub, Hx. }
    rewrite E. now rewrite orb_true_r.
Qed.

End Parser.

Lemma notIn_existsb (c : code_unit) (s : str) :
  existsb (N.eqb c) s = false -> ~ In c s.
Proof.
  intros H Hin. assert (E : existsb (N.eqb c) s = true).
  { apply existsb_exists. exists c. split; [assumption | apply N.eqb_refl]. }
  congruence.
Qed.

Example exampleObject_decodes : JSON.parse exampleObject = Normal examplePlan.
Proof. vm_compute. reflexivity. Qed.

(** C1, as stated, fails: prose that itself holds a brace.  The object
    with an ok summary and an empty stop list is well formed, yet after
    the prose [Plan {v2}: ] the cut runs from the brace of the prose to the
    end of the object, which does not decode; [ErrandOS] gets [null] and
    [ErrandOptimizer] a thrown [SyntaxError]. *)
Lemma response_parser_prose_brace_counterexample :
  let prose := lit "Plan {v2}: " in
  let object := jlit "{'summary':'ok','stops':[]}" in
  let decoded :=
    JSON.Object [ (lit "summary", JSON.String (lit "ok"));
                  (lit "stops", JSON.Array []) ] in
  JSON.parse object = Normal decoded /\
  ErrandOS.extractJSON JSON.parse (Some (prose ++ object)) = Normal None /\
  ErrandOptimizer.parseResponseText JSON.parse (Some (prose ++ object))
  = Throw SyntaxError.
Proof. vm_compute. repeat split. Qed.

(** C1 (amended): when no opening brace precedes the object in the response
    text and no closing brace follows it, the object [{ mid }] is what both
    parsers hand to the decoder, and its decoded value is what they yield:
    [ErrandOS.extractJSON] provided that no fence marker occurs between
    the braces (it deletes the markers everywhere before it cuts),
    [ErrandOptimizer] without that proviso.  Fences and prose around the
    object are tolerated. *)
Theorem response_parser_extracts_delimited_object
    (J : Type) (JSON_parse : str -> completion J)
    (pre mid post : str) (v : J) :
  ~ In OPEN_BRACE pre ->
  ~ In CLOSE_BRACE post ->
  JSON_parse (braced mid) = Normal v ->
  (occurs FENCE mid = false ->
   ErrandOS.extractJSON JSON_parse (Some (pre ++ braced mid ++ post))
   = Normal (Some v))
  /\ ErrandOptimizer.parseResponseText JSON_parse
       (Some (pre ++ braced mid ++ post))
     = Normal v.
Proof.
  intros Hpre Hpost Hv. split.
  - intros Hmid. rewrite extractJSON_around by assumption. now rewrite Hv.
  - rewrite parseResponseText_around by assumption. exact Hv.
Qed.

Lemma response_parser_extracts_delimited_object_witness :
  let pre := lit "Here you go:" ++ NEWLINE ++ lit "```json" ++ NEWLINE in
  let mid :=
    jlit "'summary':'ok','stops':[],'totalTime':'0m','efficiencyScore':100,'reasoning':'none needed'" in
  let post := NEWLINE ++ lit "```" in
  (~ In OPEN_BRACE pre /\ ~ In CLOSE_BRACE post /\
   JSON.parse (braced mid) = Normal examplePlan /\
   occurs FENCE mid = false) /\
  ErrandOS.extractJSON JSON.parse (Some (pre ++ braced mid ++ post))
  = Normal (Some examplePlan) /\
  ErrandOptimizer.parseResponseText JSON.parse
    (Some (pre ++ braced mid ++ post))
  = Normal examplePlan.
Proof.
  intros pre mid post.
  assert (Hpre : ~ In OPEN_BRACE pre)
    by (apply notIn_existsb; vm_compute; reflexivity).
  assert (Hpost : ~ In CLOSE_BRACE post)
    by (apply notIn_existsb; vm_compute; reflexivity).
  assert (Hv : JSON.parse (braced mid) = Normal examplePlan)
    by (vm_compute; reflexivity).
  assert (Hmid : occurs FENCE mid = false) by (vm_compute; reflexivity).
  destruct (@response_parser_extracts_delimited_object
              JSON.value JSON.parse pre mid post examplePlan Hpre Hpost Hv)
    as [Hos Hopt].
  split; [repeat split; assumption|].
  split; [exact (Hos Hmid) | exact Hopt].
Defined.

(** C10: [extractJSON] of [ErrandOS] never throws.  For every input, a
    string or [undefined], it returns normally, and what it returns is
    [null] when the input is not a string, when the cleaned text lacks an
    opening or a closing brace, or when the decoder throws on the cut; it
    is the decoded value otherwise. *)
Theorem extractJSON_total
    (J : Type) (JSON_parse : str -> completion J) (text : option str) :
  exists r : option J,
    ErrandOS.extractJSON JSON_parse text = Normal r /\
    r = match text with
        | None => None
        | Some t =>
            if ((indexOf (cleaned t) OPEN_BRACE =? -1)
                || (lastIndexOf (cleaned t) CLOSE_BRACE + 1 =? 0))%Z
            then None
            else
              match JSON_parse (jsonSpan t) with
              | Normal v => Some v
              | Throw _ => None
              end
        end.
Proof.
  exists (extracted JSON_parse text). split.
  - apply extractJSON_extracted.
  - reflexivity.
Qed.

(** ** One generation *)

Section Generation.
Context {J : Type}.
Variable JSON_parse : str -> completion J.
Variable truthy : J -> bool.
Variable recognitionRef : option SpeechRecognition.
Variable toFixed3 : Q -> str.

Lemma settle_failure c req service st err :
  attempt JSON_parse truthy c service = Throw err ->
  settle JSON_parse truthy c req service st = settleFailure c err st.
Proof.
  destruct c; cbn [attempt settle]; intros H;
    [unfold ErrandOS.generatePlan_settle
    | unfold ErrandOptimizer.generatePlan_settle];
    rewrite H; destruct st; now destruct err.
Qed.

Lemma settle_success c req service st parsedPlan sources :
  attempt JSON_parse truthy c service = Normal (parsedPlan, sources) ->
  settle JSON_parse truthy c req service st
  = setIsLoading false (commit req parsedPlan sources st).
Proof.
  destruct c; cbn [attempt settle]; intros H;
    [unfold ErrandOS.generatePlan_settle
    | unfold ErrandOptimizer.generatePlan_settle];
    now rewrite H.
Qed.

Lemma generate_begin c isReroute service st :
  generate JSON_parse truthy c isReroute service st
  = match generatePlan_begin isReroute st with
    | None => st
    | Some (st1, req) => settle JSON_parse truthy c req service st1
    end.
Proof. now destruct c. Qed.

Lemma begin_reroute (st : State J) :
  generatePlan_begin true st
  = Some (setError None (setIsLoading true st),
          {| req_input := input st; req_isReroute := true |}).
Proof.
  unfold generatePlan_begin. now rewrite andb_false_r.
Qed.

Lemma begin_nonblank isReroute (st : State J) :
  nonEmpty (trim (input st)) = true ->
  generatePlan_begin isReroute st
  = Some (setError None (setIsLoading true st),
          {| req_input := input st; req_isReroute := isReroute |}).
Proof.
  unfold generatePlan_begin. now intros ->.
Qed.

Lemma begin_frame isReroute (st st1 : State J) req :
  generatePlan_begin isReroute st = Some (st1, req) ->
  plan st1 = plan st /\ groundingLinks st1 = groundingLinks st /\
  history st1 = history st /\
  req_input req = input st /\ req_isReroute req = isReroute.
Proof.
  unfold generatePlan_begin. destruct (_ && _); [discriminate|].
  intros [= <- <-]. now repeat split.
Qed.

Lemma history_commit req (p : J) sources st :
  history (commit req p sources st)
  = if req_isReroute req then history st
    else firstn 5 (req_input req :: history st).
Proof. unfold commit. now destruct (req_isReroute req). Qed.

Lemma firstn_app_firstn (A : Type) (n : nat) (a l : list A) :
  firstn n (a ++ firstn n l) = firstn n (a ++ l).
Proof.
  rewrite !firstn_app, firstn_firstn. do 2 f_equal. lia.
Qed.

(** The three ways a [try] block is left by a throw. *)
Lemma attempt_service_failure c err :
  attempt JSON_parse truthy c (Throw err) = Throw err.
Proof. now destruct c. Qed.

Lemma attempt_no_plan_data response :
  extracted JSON_parse (text response) = None ->
  attempt JSON_parse truthy OS (Normal response)
  = Throw (Error ErrandOS.noPlanData).
Proof.
  intros H. cbn [attempt]. unfold ErrandOS.attempt. cbn [bind].
  rewrite extractJSON_extracted, H. reflexivity.
Qed.

Lemma attempt_decoder_failure response err :
  ErrandOptimizer.parseResponseText JSON_parse (text response) = Throw err ->
  attempt JSON_parse truthy Optimizer (Normal response) = Throw err.
Proof.
  intros H. cbn [attempt]. unfold ErrandOptimizer.attempt. cbn [bind].
  now rewrite H.
Qed.

(** C2: a generation or reroute whose [try] block is left by a throw
    (the service failed, no plan data was found, or the decoder threw)
    leaves the held plan and the grounding links as they were, whether
    it is run in one go or settles in a later state. *)
Theorem failed_generation_keeps_plan_and_links
    (c : component) (isReroute : bool) (req : Request)
    (service : completion Response) (st : State J) (err : exn) :
  attempt JSON_parse truthy c service = Throw err ->
  (plan (settle JSON_parse truthy c req service st) = plan st /\
   groundingLinks (settle JSON_parse truthy c req service st)
   = groundingLinks st) /\
  (plan (generate JSON_parse truthy c isReroute service st) = plan st /\
   groundingLinks (generate JSON_parse truthy c isReroute service st)
   = groundingLinks st).
Proof.
  intros Hfail. split.
  - erewrite settle_failure by eassumption. now split.
  - rewrite generate_begin.
    destruct (generatePlan_begin isReroute st) as [[st1 r]|] eqn:Hb;
      [|now split].
    erewrite settle_failure by eassumption.
    apply begin_frame in Hb as (Hp & Hg & _). now split.
Qed.

(** C7: however the [try] block of a generation or reroute ends, the
    state it settles in has the busy indicator cleared.  A reroute
    always gets that far; an initial generation does unless the guard
    on blank input returns at once, and then the state is untouched. *)
Theorem busy_indicator_cleared
    (c : component) (isReroute : bool) (req : Request)
    (service : completion Response) (st : State J) :
  isLoading (settle JSON_parse truthy c req service st) = false /\
  isLoading (generate JSON_parse truthy c true service st) = false /\
  generate JSON_parse truthy c isReroute service st
  = match generatePlan_begin isReroute st with
    | None => st
    | Some (st1, r) => settle JSON_parse truthy c r service st1
    end /\
  (generatePlan_begin isReroute st = None \/
   isLoading (generate JSON_parse truthy c isReroute service st) = false).
Proof.
  assert (Hsettle : forall r s,
             isLoading (settle JSON_parse truthy c r service s) = false).
  { intros r s.
    destruct (attempt JSON_parse truthy c service) as [[p srcs]|e] eqn:Ha.
    - now erewrite settle_success by eassumption.
    - now erewrite settle_failure by eassumption. }
  split; [apply Hsettle|]. split; [|split].
  - rewrite generate_begin, begin_reroute. apply Hsettle.
  - apply generate_begin.
  - rewrite generate_begin.
    destruct (generatePlan_begin isReroute st) as [[st1 r]|];
      [right; apply Hsettle | now left].
Qed.

(** C9: a reroute, successful or not, leaves the request history as it
    was, whether it is run in one go or settles in a later state. *)
Theorem reroute_keeps_history
    (c : component) (captured : str)
    (service : completion Response) (st : State J) :
  history (generate JSON_parse truthy c true service st) = history st /\
  history (settle JSON_parse truthy c
             {| req_input := captured; req_isReroute := true |} service st)
  = history st.
Proof.
  assert (Hsettle : forall i s,
             history (settle JSON_parse truthy c
                        {| req_input := i; req_isReroute := true |}
                        service s) = history s).
  { intros i s.
    destruct (attempt JSON_parse truthy c service) as [[p srcs]|e] eqn:Ha.
    - now erewrite settle_success by eassumption.
    - now erewrite settle_failure by eassumption. }
  split; [|apply Hsettle].
  rewrite generate_begin, begin_reroute. now rewrite Hsettle.
Qed.

Lemma settle_history_le c req service (st : State J) :
  (length (history st) <= 5)%nat ->
  (length (history (settle JSON_parse truthy c req service st)) <= 5)%nat.
Proof.
  intros Hle.
  destruct (attempt JSON_parse truthy c service) as [[p srcs]|e] eqn:Ha.
  - erewrite settle_success by eassumption.
    cbn [history setIsLoading]. rewrite history_commit.
    destruct (req_isReroute req); [assumption | apply firstn_le_length].
  - now erewrite settle_failure by eassumption.
Qed.

Lemma step_history_le c (st : State J) ev :
  (length (history st) <= 5)%nat ->
  (length (history (step JSON_parse truthy recognitionRef toFixed3 c st ev))
   <= 5)%nat.
Proof.
  intros Hle. destruct ev; cbn [step]; try assumption.
  - now destruct c.
  - unfold toggleListening.
    destruct (isListening st);
      [destruct (optionalCall recognitionRef stop)
      | destruct (optionalCall recognitionRef start)]; assumption.
  - rewrite generate_begin.
    destruct (generatePlan_begin isReroute st) as [[st1 r]|] eqn:Hb;
      [|assumption].
    apply settle_history_le. apply begin_frame in Hb as (_ & _ & Hh & _).
    now rewrite Hh.
  - destruct (generatePlan_begin isReroute st) as [[st1 r]|] eqn:Hb;
      [|assumption].
    apply begin_frame in Hb as (_ & _ & Hh & _). now rewrite Hh.
  - now apply settle_history_le.
Qed.

Lemma run_history_le c evs : forall st : State J,
  (length (history st) <= 5)%nat ->
  (length (history (run JSON_parse truthy recognitionRef toFixed3 c evs st))
   <= 5)%nat.
Proof.
  induction evs as [|ev evs IH]; intros st Hle; [assumption|].
  apply IH. now apply step_history_le.
Qed.

Lemma generate_success_history c service (st : State J) parsedPlan sources :
  nonEmpty (trim (input st)) = true ->
  attempt JSON_parse truthy c service = Normal (parsedPlan, sources) ->
  history (generate JSON_parse truthy c false service st)
  = firstn 5 (input st :: history st).
Proof.
  intros Hin Ha. rewrite generate_begin, begin_nonblank by assumption.
  erewrite settle_success by eassumption. reflexivity.
Qed.

Lemma submit_history c g (st : State J) :
  succeeds JSON_parse truthy c g ->
  history (run JSON_parse truthy recognitionRef toFixed3 c (submit g) st)
  = firstn 5 (gen_input g :: history st).
Proof.
  intros [Hin (p & srcs & Ha)]. cbn [run submit fold_left step].
  erewrite generate_success_history by eassumption. reflexivity.
Qed.

Lemma submits_history c gens : forall st : State J,
  (length (history st) <= 5)%nat ->
  Forall (succeeds JSON_parse truthy c) gens ->
  history (run JSON_parse truthy recognitionRef toFixed3 c
             (flat_map submit gens) st)
  = firstn 5 (rev (map gen_input gens) ++ history st).
Proof.
  induction gens as [|g gens IH]; intros st Hle Hall.
  - unfold run. cbn [flat_map fold_left map rev app].
    now rewrite firstn_all2.
  - inversion Hall as [|? ? Hg Hrest]; subst.
    cbn [flat_map]. unfold run. rewrite fold_left_app.
    fold (run JSON_parse truthy recognitionRef toFixed3 c (submit g) st).
    fold (run JSON_parse truthy recognitionRef toFixed3 c
            (flat_map submit gens)
            (run JSON_parse truthy recognitionRef toFixed3 c (submit g) st)).
    rewrite IH; [|now apply run_history_le|assumption].
    rewrite submit_history by assumption.
    rewrite firstn_app_firstn. cbn [map rev]. now rewrite <- app_assoc.
Qed.

Lemma initial_history c : history (initial (J := J) c) = [].
Proof. now destruct c. Qed.

(** C3: in every state a session can reach, the request history has at
    most 5 entries.  A run of successful initial generations puts their
    request texts in front of it, the latest first, and keeps the first
    5 of the result.  After 6 such generations with distinct texts in a
    fresh session the history is the last 5 texts, latest first, and
    the text of the first generation is gone. *)
Theorem request_history_bounded_most_recent_first
    (c : component) (evs : list event) (gens : list generation)
    (oldest : generation) (later : list generation) :
  Forall (succeeds JSON_parse truthy c) gens ->
  Forall (succeeds JSON_parse truthy c) (oldest :: later) ->
  length later = 5%nat ->
  NoDup (map gen_input (oldest :: later)) ->
  let session := run JSON_parse truthy recognitionRef toFixed3 c in
  let st := session evs (initial c) in
  (length (history st) <= 5)%nat /\
  history (session (flat_map submit gens) st)
  = firstn 5 (rev (map gen_input gens) ++ history st) /\
  history (session (flat_map submit (oldest :: later)) (initial c))
  = rev (map gen_input later) /\
  ~ In (gen_input oldest)
      (history (session (flat_map submit (oldest :: later)) (initial c))).
Proof.
  intros Hgens Hsix Hlen Hdup session st.
  assert (Hst : (length (history st) <= 5)%nat).
  { apply run_history_le. rewrite initial_history. simpl. lia. }
  assert (Hfresh : history (session (flat_map submit (oldest :: later))
                              (initial c))
                   = rev (map gen_input later)).
  { unfold session. rewrite submits_history;
      [|rewrite initial_history; simpl; lia|assumption].
    rewrite initial_history, app_nil_r. cbn [map rev].
    rewrite firstn_app, firstn_all2
      by (rewrite length_rev, length_map; lia).
    rewrite length_rev, length_map, Hlen. cbn. apply app_nil_r. }
  split; [assumption|]. split; [now apply submits_history|].
  split; [assumption|].
  rewrite Hfresh. intros Hin. apply in_rev in Hin.
  cbn [map] in Hdup. now inversion Hdup.
Qed.

End Generation.

(** ** Citation extraction *)


Lemma optimizer_source_of_chunk chunk :
  ErrandOptimizer.pushSource chunk
  = match usableUri chunk, chunkTitle chunk with
    | Some u, Some t =>
        if nonEmpty t then [{| title := t; uri := u |}] else []
    | _, _ => []
    end.
Proof.
  destruct chunk as [[[[[[|? t]|] [[|? u]|]]|]]|]; reflexivity.
Qed.

(** C4, at the failing input: a grounding chunk with a reference and no
    title.  [ErrandOS] lists it under the placeholder title;
    [ErrandOptimizer], which asks for a title as well, drops it. *)
Theorem untitled_source_dropped_by_optimizer :
  let response := {| text := None; groundingChunks := Some [untitledChunk] |} in
  ErrandOS.collectSources response
  = [{| title := lit "Map Location";
        uri := lit "https://maps.google.com/?cid=1" |}] /\
  ErrandOptimizer.collectSources response = [].
Proof. split; reflexivity. Qed.

(** ** Voice toggle *)

(** C5, at the failing input: with no recogniser on the platform, a call
    of [toggleListening] does not raise, and it flips [isListening]: from
    the idle state the component goes to the listening state. *)
Theorem toggle_without_speech_flips_listening (J : Type) (st : State J) :
  snd (toggleListening None st) = Normal tt /\
  isListening (fst (toggleListening None st)) = negb (isListening st) /\
  isListening
    (fst (toggleListening None (ErrandOS.initialState (J := J)))) = true /\
  isListening
    (fst (toggleListening None (ErrandOptimizer.initialState (J := J))))
  = true.
Proof.
  unfold toggleListening. cbn [optionalCall].
  destruct (isListening st); repeat split.
Qed.

(** ** Position fallback *)

(** C6, at the failing input: when the position request fails, both
    components store the fallback coordinate and label; [ErrandOptimizer]
    also sets the advisory, [ErrandOS] leaves the error cell as it was. *)
Theorem position_fallback_advisory_missing_in_os (J : Type) (st : State J) :
  (location (ErrandOS.onPositionError st)
   = Some {| lat := 37.7749%Q; lng := (-122.4194)%Q |} /\
   locationName (ErrandOS.onPositionError st) = lit "San Francisco, CA" /\
   error (ErrandOS.onPositionError st) = error st) /\
  (location (ErrandOptimizer.onPositionError st)
   = Some {| lat := 37.7749%Q; lng := (-122.4194)%Q |} /\
   locationName (ErrandOptimizer.onPositionError st)
   = lit "San Francisco, CA" /\
   error (ErrandOptimizer.onPositionError st)
   = Some (lit "Location access denied. Routing from default hub (San Francisco).")).
Proof. repeat split. Qed.

(** ** The directions link *)

Lemma hexDigit_not_slash n : hexDigit n <> SLASH.
Proof.
  unfold hexDigit, SLASH. destruct (N.ltb_spec n 10); lia.
Qed.

Lemma percent_no_slash byte : ~ In SLASH (percent byte).
Proof.
  unfold percent. intros [H|[H|[H|[]]]].
  - discriminate H.
  - now apply hexDigit_not_slash in H.
  - now apply hexDigit_not_slash in H.
Qed.

Lemma escapeCodePoint_no_slash cp : ~ In SLASH (escapeCodePoint cp).
Proof.
  unfold escapeCodePoint. intros H. apply in_flat_map in H as (b & _ & H).
  now apply percent_no_slash in H.
Qed.

Lemma encodeURIComponent_cons c s :
  encodeURIComponent (c :: s)
  = if uriUnreserved c then
      r <- encodeURIComponent s ;; Normal (c :: r)
    else if isLowSurrogate c then Throw URIError
    else if isHighSurrogate c then
      match s with
      | [] => Throw URIError
      | d :: s' =>
          if isLowSurrogate d then
            r <- encodeURIComponent s' ;;
            Normal (escapeCodePoint
                      ((c - 55296) * 1024 + (d - 56320) + 65536)%N ++ r)
          else Throw URIError
      end
    else
      r <- encodeURIComponent s ;; Normal (escapeCodePoint c ++ r).
Proof. reflexivity. Qed.

Lemma encodeURIComponent_no_slash : forall s r,
  encodeURIComponent s = Normal r -> ~ In SLASH r.
Proof.
  assert (H : forall s,
             (forall r, encodeURIComponent s = Normal r -> ~ In SLASH r) /\
             (forall c r, encodeURIComponent (c :: s) = Normal r ->
                          ~ In SLASH r)).
  { induction s as [|d s [IH1 IH2]].
    - split; [intros r [= <-]; tauto|].
      intros c r. rewrite encodeURIComponent_cons. cbn [encodeURIComponent bind].
      destruct (uriUnreserved c) eqn:Hu.
      + intros [= <-]. intros [E|[]]. subst c. vm_compute in Hu. discriminate Hu.
      + destruct (isLowSurrogate c); [discriminate|].
        destruct (isHighSurrogate c); [discriminate|].
        intros [= <-]. rewrite app_nil_r. apply escapeCodePoint_no_slash.
    - split; [exact (IH2 d)|].
      intros c r. rewrite encodeURIComponent_cons.
      destruct (uriUnreserved c) eqn:Hu.
      +        destruct (encodeURIComponent (d :: s)) as [r'|] eqn:E; cbn [bind];
          [|discriminate].
        intros [= <-]. intros [E'|E'].
        * subst c. vm_compute in Hu. discriminate Hu.
        * now apply (IH2 d r').
      + destruct (isLowSurrogate c); [discriminate|].
        destruct (isHighSurrogate c).
        * destruct (isLowSurrogate d); [|discriminate].
          destruct (encodeURIComponent s) as [r'|] eqn:E; cbn [bind];
            [|discriminate].
          intros [= <-]. intros Hin. apply in_app_or in Hin as [Hin|Hin].
          -- now apply escapeCodePoint_no_slash in Hin.
          -- now apply (IH1 r').
        *          destruct (encodeURIComponent (d :: s)) as [r'|] eqn:E; cbn [bind];
            [|discriminate].
          intros [= <-]. intros Hin. apply in_app_or in Hin as [Hin|Hin].
          -- now apply escapeCodePoint_no_slash in Hin.
          -- now apply (IH2 d r'). }
  intros s. apply H.
Qed.

Lemma mapM_Forall2 (A B : Type) (f : A -> completion B) : forall l bs,
  Forall2 (fun a b => f a = Normal b) l bs -> mapM f l = Normal bs.
Proof.
  induction 1 as [|a b l bs Hab _ IH]; [reflexivity|].
  cbn [mapM bind]. rewrite Hab. cbn [bind]. now rewrite IH.
Qed.

Section Link.
Variable Number_toString : Q -> str.
Variable showNumber : str -> str.

Lemma escapeStop_no_slash s e :
  escapeStop showNumber s = Normal e -> ~ In SLASH e.
Proof.
  unfold escapeStop.
  destruct (addressText showNumber s) as [a|]; cbn [bind]; [|discriminate].
  apply encodeURIComponent_no_slash.
Qed.

Lemma link_of_stops (st : State JSON.value) p elems :
  plan st = Some p ->
  property (lit "stops") p = Some (JSON.Array elems) ->
  getMultiStopMapsUrl Number_toString showNumber st
  = (escaped <- mapM (escapeStop showNumber) elems ;;
     Normal (base
             ++ (showCoordinate Number_toString (option_map lat (location st))
                 ++ lit ","
                 ++ showCoordinate Number_toString
                      (option_map lng (location st))
                 ++ lit "/")
             ++ join (lit "/") escaped)).
Proof.
  intros Hp Hs. unfold getMultiStopMapsUrl. rewrite Hp.
  assert (Ht : JSON.truthy p = true)
    by (destruct p; try discriminate Hs; reflexivity).
  rewrite Ht, Hs. reflexivity.
Qed.

(** C8 (amended): a held plan that carries no stops -- it is falsy, or
    its [stops] is missing or falsy -- has the link [#].  For a held plan
    whose [stops] is an array, every element of which has an address
    text that can be URL-escaped, and with a location stored, the
    directions link is the base URL, the latitude and the longitude of
    the stored location with a comma between them, a slash, and the
    escaped address texts in stop order with slashes between them; no
    escaped address text holds a slash, so each is one path segment. *)
Theorem directions_link_of_held_plan
    (st : State JSON.value) (p : JSON.value) :
  plan st = Some p ->
  (carriesStops p = false ->
   getMultiStopMapsUrl Number_toString showNumber st = Normal (lit "#")) /\
  (forall (loc : Location) (elems : list JSON.value) (escaped : list str),
     location st = Some loc ->
     property (lit "stops") p = Some (JSON.Array elems) ->
     Forall2 (fun s e => escapeStop showNumber s = Normal e) elems escaped ->
     getMultiStopMapsUrl Number_toString showNumber st
     = Normal (base ++ Number_toString (lat loc) ++ lit ","
               ++ Number_toString (lng loc) ++ lit "/"
               ++ join (lit "/") escaped) /\
     Forall (fun e => ~ In SLASH e) escaped).
Proof.
  intros Hp. split.
  - intros Hno. unfold getMultiStopMapsUrl. rewrite Hp.
    destruct (JSON.truthy p); [|reflexivity]. cbn [negb].
    unfold carriesStops in Hno.
    destruct (property (lit "stops") p) as [stops|]; [|reflexivity].
    now rewrite Hno.
  - intros loc elems escaped Hloc Hs Hesc. split.
    + rewrite (link_of_stops _ Hp Hs), (mapM_Forall2 _ Hesc), Hloc.
      cbn [bind option_map showCoordinate]. now rewrite <- !app_assoc.
    + clear Hp Hs. induction Hesc as [|s e ss escaped He _ IH];
        constructor; [|assumption].
      now apply escapeStop_no_slash in He.
Qed.

End Link.

(** C8, as stated, fails: a response that is an object with a summary
    only is taken as the plan by either component, and the held plan has
    no [stops].  The link is [#], which does not begin with the base
    URL. *)
Lemma directions_link_without_stops_counterexample :
  let response :=
    Normal {| text := Some (jlit "{'summary':'ok'}");
              groundingChunks := None |} in
  let held (c : component) :=
    generate JSON.parse JSON.truthy c false response
      (setInput (lit "milk") (initial c)) in
  (plan (held OS) = Some summaryOnly /\
   getMultiStopMapsUrl showFallback showLexeme (held OS) = Normal (lit "#")) /\
  (plan (held Optimizer) = Some summaryOnly /\
   getMultiStopMapsUrl showFallback showLexeme (held Optimizer)
   = Normal (lit "#")) /\
  startsWith base (lit "#") = false.
Proof. vm_compute. repeat split. Qed.

Lemma directions_link_of_held_plan_witness :
  let elems := [demoStop "1" "1 Main St"; demoStop "2" "5 Oak Ave/Suite 2";
                JSON.Object [(lit "name", JSON.String (lit "Depot"))]] in
  let st := holding (demoPlan (JSON.Array elems)) in
  let escaped := [lit "1%20Main%20St"; lit "5%20Oak%20Ave%2FSuite%202";
                  lit "undefined"] in
  (plan st = Some (demoPlan (JSON.Array elems)) /\
   carriesStops (demoPlan JSON.Null) = false /\
   location st = Some fallbackLocation /\
   property (lit "stops") (demoPlan (JSON.Array elems))
   = Some (JSON.Array elems) /\
   Forall2 (fun s e => escapeStop showLexeme s = Normal e) elems escaped) /\
  getMultiStopMapsUrl showFallback showLexeme (holding (demoPlan JSON.Null))
  = Normal (lit "#") /\
  getMultiStopMapsUrl showFallback showLexeme st
  = Normal (lit "https://www.google.com/maps/dir/37.7749,-122.4194/1%20Main%20St/5%20Oak%20Ave%2FSuite%202/undefined").
Proof.
  intros elems st escaped.
  assert (Hesc : Forall2 (fun s e => escapeStop showLexeme s = Normal e)
                   elems escaped)
    by (repeat constructor).
  split; [repeat split; exact Hesc|]. split.
  - exact (proj1 (@directions_link_of_held_plan showFallback showLexeme
                    (holding (demoPlan JSON.Null)) (demoPlan JSON.Null)
                    eq_refl) eq_refl).
  - exact (proj1 (proj2 (@directions_link_of_held_plan showFallback showLexeme
                           st (demoPlan (JSON.Array elems)) eq_refl)
                    fallbackLocation elems escaped eq_refl eq_refl Hesc)).
Defined.

Lemma failed_generation_keeps_plan_and_links_witness :
  let st := holding examplePlan in
  let req := {| req_input := lit "milk, stamps"; req_isReroute := false |} in
  attempt JSON.parse JSON.truthy OS noJsonResponse
  = Throw (Error ErrandOS.noPlanData) /\
  (plan (settle JSON.parse JSON.truthy OS req noJsonResponse st)
   = Some examplePlan /\
   groundingLinks (settle JSON.parse JSON.truthy OS req noJsonResponse st)
   = groundingLinks st) /\
  (plan (generate JSON.parse JSON.truthy OS false noJsonResponse st)
   = Some examplePlan /\
   groundingLinks (generate JSON.parse JSON.truthy OS false noJsonResponse st)
   = groundingLinks st).
Proof.
  intros st req.
  assert (Hfail : attempt JSON.parse JSON.truthy OS noJsonResponse
                  = Throw (Error ErrandOS.noPlanData))
    by (vm_compute; reflexivity).
  split; [exact Hfail|].
  exact (@failed_generation_keeps_plan_and_links JSON.value JSON.parse
           JSON.truthy OS false req noJsonResponse st _ Hfail).
Defined.

Lemma submitted_succeeds request :
  nonEmpty (trim (lit request)) = true ->
  succeeds JSON.parse JSON.truthy OS (submitted request).
Proof.
  intros H. split; [exact H|].
  exists examplePlan, []. vm_compute. reflexivity.
Qed.

Lemma request_history_bounded_most_recent_first_witness :
  let gens := [submitted "eggs"; submitted "bread"] in
  let oldest := submitted "a" in
  let later := [submitted "b"; submitted "c"; submitted "d"; submitted "e";
                submitted "f"] in
  let evs := [Edit (lit "tea"); Toggle; Begin true; PositionError;
              Generate false noJsonResponse] in
  let session := run JSON.parse JSON.truthy None showFallback OS in
  (Forall (succeeds JSON.parse JSON.truthy OS) gens /\
   Forall (succeeds JSON.parse JSON.truthy OS) (oldest :: later) /\
   length later = 5%nat /\
   NoDup (map gen_input (oldest :: later))) /\
  history (session (flat_map submit gens) (session evs (initial OS)))
  = [lit "bread"; lit "eggs"] /\
  history (session (flat_map submit (oldest :: later)) (initial OS))
  = [lit "f"; lit "e"; lit "d"; lit "c"; lit "b"] /\
  ~ In (lit "a")
      (history (session (flat_map submit (oldest :: later)) (initial OS))).
Proof.
  intros gens oldest later evs session.
  assert (Hgens : Forall (succeeds JSON.parse JSON.truthy OS) gens)
    by (repeat constructor; apply submitted_succeeds; reflexivity).
  assert (Hsix : Forall (succeeds JSON.parse JSON.truthy OS) (oldest :: later))
    by (repeat constructor; apply submitted_succeeds; reflexivity).
  assert (Hlen : length later = 5%nat) by reflexivity.
  assert (Hdup : NoDup (map gen_input (oldest :: later))).
  { repeat constructor; cbn; intuition discriminate. }
  destruct (@request_history_bounded_most_recent_first JSON.value JSON.parse
              JSON.truthy None showFallback OS evs gens oldest later
              Hgens Hsix Hlen Hdup) as (_ & Hrun & Hfresh & Hgone).
  split; [repeat split; assumption|].
  split; [exact Hrun|]. split; [exact Hfresh | exact Hgone].
Defined.

(** * Further properties *)

(** ** Voice input *)

Lemma join_cons_concat (sep p : str) (rest : list str) :
  join sep (p :: rest) = p ++ concat (map (fun t => sep ++ t) rest).
Proof.
  revert p. induction rest as [|r rest IH]; intros p.
  - cbn. now rewrite app_nil_r.
  - change (join sep (p :: r :: rest))
      with (p ++ sep ++ join sep (r :: rest)).
    rewrite IH. cbn [map concat]. now rewrite <- app_assoc.
Qed.

Section Voice.
Context {J : Type}.
Variable JSON_parse : str -> completion J.
Variable truthy : J -> bool.
Variable recognitionRef : option SpeechRecognition.
Variable toFixed3 : Q -> str.

Lemma heard_nonempty c ts : forall st : State J,
  nonEmpty (input st) = true ->
  input (run JSON_parse truthy recognitionRef toFixed3 c
           (map SpeechResult ts) st)
  = input st ++ concat (map (fun t => lit ", " ++ t) ts).
Proof.
  induction ts as [|t ts IH]; intros st Hne.
  - cbn. now rewrite app_nil_r.
  - cbn [map run fold_left step].
    change (fold_left _ _ ?s)
      with (run JSON_parse truthy recognitionRef toFixed3 c
              (map SpeechResult ts) s).
    rewrite IH.
    + cbn [onresult input setIsListening setInput]. rewrite Hne.
      cbn [map concat]. now rewrite <- !app_assoc.
    + cbn [onresult input setIsListening setInput]. rewrite Hne.
      destruct (input st); [discriminate | reflexivity].
Qed.

(** X1: voice results accumulate in the text field in the order they
    arrive, separated by a comma and a space.  On a non-empty text each
    transcript is appended after a separator; on an empty text, empty
    transcripts leave it empty and the first non-empty one becomes the
    text. *)
Theorem voice_results_accumulate (c : component) (ts : list str)
    (st : State J) :
  input (run JSON_parse truthy recognitionRef toFixed3 c
           (map SpeechResult ts) st)
  = if nonEmpty (input st)
    then input st ++ concat (map (fun t => lit ", " ++ t) ts)
    else join (lit ", ") (dropEmpty ts).
Proof.
  destruct (nonEmpty (input st)) eqn:Hne; [now apply heard_nonempty|].
  revert st Hne. induction ts as [|t ts IH]; intros st Hne.
  { cbn. now destruct (input st). }
  cbn [map run fold_left step].
  change (fold_left _ _ ?s)
    with (run JSON_parse truthy recognitionRef toFixed3 c
            (map SpeechResult ts) s).
  destruct t as [|u t].
  - cbn [dropEmpty]. apply IH.
    cbn [onresult input setIsListening setInput]. now rewrite Hne.
  - rewrite heard_nonempty.
    + cbn [onresult input setIsListening setInput]. rewrite Hne.
      cbn [dropEmpty]. now rewrite join_cons_concat.
    + cbn [onresult input setIsListening setInput]. now rewrite Hne.
Qed.

End Voice.

(** X2: when the recogniser refuses to start (its [start] throws), a
    toggle from the idle state does not raise; the component stays idle,
    shows the microphone message, and keeps text, plan, links and
    history. *)
Theorem toggle_start_failure_stays_idle
    (J : Type) (r : SpeechRecognition) (e : exn) (st : State J) :
  isListening st = false ->
  start r = Throw e ->
  let st' := fst (toggleListening (Some r) st) in
  snd (toggleListening (Some r) st) = Normal tt /\
  isListening st' = false /\
  error st' = Some MICROPHONE_UNAVAILABLE /\
  input st' = input st /\ plan st' = plan st /\
  groundingLinks st' = groundingLinks st /\ history st' = history st.
Proof.
  intros Hidle Hstart. unfold toggleListening. cbn [optionalCall].
  rewrite Hidle, Hstart. cbn. now rewrite Hidle.
Qed.

Lemma toggle_start_failure_stays_idle_witness :
  let st := holding examplePlan in
  (isListening st = false /\ start deniedRecognition = Throw
     (Thrown "NotAllowedError" (Some (lit "permission denied")))) /\
  snd (toggleListening (Some deniedRecognition) st) = Normal tt /\
  isListening (fst (toggleListening (Some deniedRecognition) st)) = false /\
  error (fst (toggleListening (Some deniedRecognition) st))
  = Some MICROPHONE_UNAVAILABLE.
Proof.
  intros st.
  destruct (@toggle_start_failure_stays_idle JSON.value deniedRecognition
              _ st eq_refl eq_refl) as (H1 & H2 & H3 & _).
  repeat split; assumption.
Defined.

(** X3: with a recogniser whose [start] and [stop] return (or with none at
    all), two toggles from the idle state lead back to the idle state:
    neither raises, and the only trace they leave is a cleared error. *)
Theorem toggle_twice_returns_to_idle
    (J : Type) (recognitionRef : option SpeechRecognition) (st : State J) :
  isListening st = false ->
  (forall r, recognitionRef = Some r ->
             start r = Normal tt /\ stop r = Normal tt) ->
  let once := toggleListening recognitionRef st in
  let twice := toggleListening recognitionRef (fst once) in
  snd once = Normal tt /\ isListening (fst once) = true /\
  snd twice = Normal tt /\ fst twice = setError None st.
Proof.
  intros Hidle Hworks. unfold toggleListening.
  destruct recognitionRef as [r|]; cbn [optionalCall].
  - destruct (Hworks r eq_refl) as [Hstart Hstop].
    rewrite Hidle, Hstart. cbn. rewrite Hstop. cbn.
    unfold setIsListening, setError. cbn. rewrite Hidle. now repeat split.
  - rewrite Hidle. cbn. unfold setIsListening, setError. cbn.
    rewrite Hidle. now repeat split.
Qed.

Lemma toggle_twice_returns_to_idle_witness :
  let st := holding examplePlan in
  (isListening st = false /\
   (forall r, Some workingRecognition = Some r ->
              start r = Normal tt /\ stop r = Normal tt)) /\
  fst (toggleListening (Some workingRecognition)
         (fst (toggleListening (Some workingRecognition) st)))
  = setError None st.
Proof.
  intros st.
  assert (Hw : forall r, Some workingRecognition = Some r ->
                         start r = Normal tt /\ stop r = Normal tt)
    by (intros r [= <-]; split; reflexivity).
  split; [split; [reflexivity | exact Hw]|].
  exact (proj2 (proj2 (proj2
           (@toggle_twice_returns_to_idle JSON.value
              (Some workingRecognition) st eq_refl Hw)))).
Defined.

(** ** One request, further *)

Lemma trimStart_blank (s : str) :
  Forall (fun u => isWhiteSpace u = true) s -> trimStart s = [].
Proof.
  induction 1 as [|u s Hu _ IH]; [reflexivity|]. cbn. now rewrite Hu.
Qed.

Lemma trim_blank (s : str) :
  Forall (fun u => isWhiteSpace u = true) s -> trim s = [].
Proof.
  intros H. unfold trim. now rewrite trimStart_blank.
Qed.

Lemma trimStart_nil_blank (s : str) :
  trimStart s = [] -> Forall (fun u => isWhiteSpace u = true) s.
Proof.
  induction s as [|u s IH]; [constructor|]. cbn.
  destruct (isWhiteSpace u) eqn:Hu; [|discriminate].
  intros H. constructor; [assumption | now apply IH].
Qed.

Lemma trim_nil_blank (s : str) :
  trim s = [] -> Forall (fun u => isWhiteSpace u = true) s.
Proof.
  unfold trim, trimEnd. intros H.
  assert (H' : trimStart (rev (trimStart s)) = []).
  { rewrite <- (rev_involutive (trimStart _)), H. reflexivity. }
  apply trimStart_nil_blank in H'. apply Forall_rev in H'.
  rewrite rev_involutive in H'.
  clear H. induction s as [|u s IH]; [constructor|].
  cbn in H'. destruct (isWhiteSpace u) eqn:Hu.
  - constructor; [assumption | now apply IH].
  - inversion H'; congruence.
Qed.

Section Requests.
Context {J : Type}.
Variable JSON_parse : str -> completion J.
Variable truthy : J -> bool.

(** X4: an initial generation on a text that is empty or consists of white
    space only does nothing: the state is left exactly as it was (no busy
    indicator, no error change, no history entry), whatever the service
    would have answered.  This is the only case in which a call of
    [generatePlan] leaves the request unsent. *)
Theorem blank_request_is_ignored
    (c : component) (isReroute : bool) (service : completion Response)
    (st : State J) :
  (Forall (fun u => isWhiteSpace u = true) (input st) ->
   generate JSON_parse truthy c false service st = st) /\
  (generatePlan_begin isReroute st = None <->
   isReroute = false /\
   Forall (fun u => isWhiteSpace u = true) (input st)).
Proof.
  split.
  - intros Hblank. rewrite generate_begin. unfold generatePlan_begin.
    now rewrite trim_blank.
  - unfold generatePlan_begin. split.
    + destruct (nonEmpty (trim (input st))) eqn:Hne, isReroute;
        try discriminate.
      intros _. split; [reflexivity|]. apply trim_nil_blank.
      now destruct (trim (input st)).
    + intros [-> Hblank]. now rewrite trim_blank.
Qed.

(** X5: a request whose [try] block runs to its end replaces the held plan
    and the grounding links wholesale by what the response gave, whatever
    was held before, and ends with the busy indicator off.  Run in one
    go, it also ends with no error shown. *)
Theorem successful_request_replaces_plan_and_links
    (c : component) (isReroute : bool) (req : Request)
    (service : completion Response) (st : State J)
    (parsedPlan : J) (sources : list GroundingLink) :
  attempt JSON_parse truthy c service = Normal (parsedPlan, sources) ->
  (plan (settle JSON_parse truthy c req service st) = Some parsedPlan /\
   groundingLinks (settle JSON_parse truthy c req service st) = sources /\
   error (settle JSON_parse truthy c req service st) = error st) /\
  (generatePlan_begin isReroute st <> None ->
   let st' := generate JSON_parse truthy c isReroute service st in
   plan st' = Some parsedPlan /\ groundingLinks st' = sources /\
   error st' = None /\ isLoading st' = false).
Proof.
  intros Hok.
  assert (Hsettle : forall r s,
             let s' := settle JSON_parse truthy c r service s in
             plan s' = Some parsedPlan /\ groundingLinks s' = sources /\
             error s' = error s /\ isLoading s' = false).
  { intros r s. cbv zeta. erewrite settle_success by eassumption.
    unfold commit. now destruct (req_isReroute r). }
  split.
  - destruct (Hsettle req st) as (H1 & H2 & H3 & _). now repeat split.
  - intros Hbegin. cbv zeta. rewrite generate_begin.
    destruct (generatePlan_begin isReroute st) as [[st1 r]|] eqn:Hb;
      [|congruence].
    destruct (Hsettle r st1) as (H1 & H2 & H3 & H4).
    repeat split; try assumption. rewrite H3.
    unfold generatePlan_begin in Hb. destruct (_ && _); [discriminate|].
    now injection Hb as <- _.
Qed.

(** X6: what a request whose [try] block is left by a throw shows.
    [ErrandOptimizer] shows one fixed text whatever was thrown.
    [ErrandOS] shows the message of the thrown value, or
    [Spatial processing interrupted.] when that is missing or empty, so
    the text it shows is never empty; but when [null] or [undefined]
    was thrown its handler fails on reading the message, and the error
    cell is left as it was. *)
Theorem failed_request_shows_message
    (c : component) (req : Request) (service : completion Response)
    (st : State J) (err : exn) :
  attempt JSON_parse truthy c service = Throw err ->
  let st' := settle JSON_parse truthy c req service st in
  match c, err with
  | OS, Nullish => error st' = error st
  | OS, Thrown _ message =>
      error st'
      = Some (orElse message (lit "Spatial processing interrupted.")) /\
      nonEmpty (orElse message (lit "Spatial processing interrupted."))
      = true
  | Optimizer, _ =>
      error st'
      = Some (lit "Spatial processing interrupted. Verify errand descriptions and try again.")
  end.
Proof.
  intros Hfail. cbv zeta. erewrite settle_failure by eassumption.
  destruct c, err as [|n message]; try reflexivity.
  split; [reflexivity|].
  unfold orElse. destruct message as [m|]; [|reflexivity].
  now destruct m.
Qed.

(** X7: no request, successful or not, in one go or settling later,
    touches the text field, the listening flag, the stored location or
    its label. *)
Theorem request_keeps_text_and_location
    (c : component) (isReroute : bool) (req : Request)
    (service : completion Response) (st : State J) :
  let unchanged (st' : State J) :=
    input st' = input st /\ isListening st' = isListening st /\
    location st' = location st /\ locationName st' = locationName st in
  unchanged (settle JSON_parse truthy c req service st) /\
  unchanged (generate JSON_parse truthy c isReroute service st).
Proof.
  assert (Hsettle : forall r s,
             let s' := settle JSON_parse truthy c r service s in
             input s' = input s /\ isListening s' = isListening s /\
             location s' = location s /\ locationName s' = locationName s).
  { intros r s. cbv zeta.
    destruct (attempt JSON_parse truthy c service) as [[p srcs]|e] eqn:Ha.
    - erewrite settle_success by eassumption. unfold commit.
      now destruct (req_isReroute r).
    - now erewrite settle_failure by eassumption. }
  cbv zeta. split; [apply Hsettle|].
  rewrite generate_begin. unfold generatePlan_begin.
  destruct (_ && _); [now repeat split|].
  destruct (Hsettle {| req_input := input st; req_isReroute := isReroute |}
              (setError None (setIsLoading true st))) as (H1 & H2 & H3 & H4).
  now rewrite H1, H2, H3, H4.
Qed.

Lemma os_attempt_truthy
    (service : completion Response) (parsedPlan : J)
    (sources : list GroundingLink) :
  attempt JSON_parse truthy OS service = Normal (parsedPlan, sources) ->
  truthy parsedPlan = true.
Proof.
  cbn [attempt]. unfold ErrandOS.attempt.
  destruct service as [response|e]; cbn [bind]; [|discriminate].
  rewrite extractJSON_extracted. cbn [bind].
  destruct (extracted JSON_parse (text response)) as [v|]; [|discriminate].
  destruct (truthy v) eqn:Hv; [|discriminate].
  now intros [= <- _].
Qed.

(** X8: [ErrandOS] never accepts a falsy decoded value as a plan: whenever
    its [try] block runs to its end, the plan it commits is truthy. *)
Theorem os_commits_truthy_plans_only
    (service : completion Response) (parsedPlan : J)
    (sources : list GroundingLink) :
  attempt JSON_parse truthy OS service = Normal (parsedPlan, sources) ->
  truthy parsedPlan = true.
Proof. apply os_attempt_truthy. Qed.

(** X9: the submit button and the guard of [generatePlan] agree.  When the
    button is enabled, a click gets past the guard, captures the text as
    it is, and disables the button; when the guard would return at once,
    the button is disabled. *)
Theorem submit_button_agrees_with_guard (st : State J) :
  (submitDisabled st = false ->
   exists st1 req,
     generatePlan_begin false st = Some (st1, req) /\
     req_input req = input st /\ req_isReroute req = false /\
     submitDisabled st1 = true) /\
  (generatePlan_begin false st = None -> submitDisabled st = true).
Proof.
  unfold submitDisabled, generatePlan_begin. split.
  - intros H. apply orb_false_iff in H as [_ H]. rewrite H. cbn.
    now eexists _, _.
  - destruct (nonEmpty (trim (input st))); [discriminate|].
    intros _. apply orb_true_r.
Qed.

End Requests.

Lemma blank_request_is_ignored_witness :
  let st := setInput [32%N; 9%N; 10%N; 160%N] (holding examplePlan) in
  Forall (fun u => isWhiteSpace u = true) (input st) /\
  generate JSON.parse JSON.truthy OS false exampleResponse st = st.
Proof.
  intros st.
  assert (Hblank : Forall (fun u => isWhiteSpace u = true) (input st))
    by (repeat constructor).
  split; [exact Hblank|].
  exact (proj1 (@blank_request_is_ignored JSON.value JSON.parse JSON.truthy
                  OS false exampleResponse st) Hblank).
Defined.

Lemma successful_request_replaces_plan_and_links_witness :
  let st := holding (JSON.Number (lit "7")) in
  let req := {| req_input := lit "milk"; req_isReroute := true |} in
  (attempt JSON.parse JSON.truthy Optimizer exampleResponse
   = Normal (examplePlan, []) /\
   generatePlan_begin true st <> None) /\
  plan (settle JSON.parse JSON.truthy Optimizer req exampleResponse st)
  = Some examplePlan /\
  groundingLinks (generate JSON.parse JSON.truthy Optimizer true
                    exampleResponse st) = [].
Proof.
  intros st req.
  assert (Hok : attempt JSON.parse JSON.truthy Optimizer exampleResponse
                = Normal (examplePlan, []))
    by (vm_compute; reflexivity).
  assert (Hb : generatePlan_begin true st <> None) by discriminate.
  destruct (@successful_request_replaces_plan_and_links JSON.value JSON.parse
              JSON.truthy Optimizer true req exampleResponse st _ _ Hok)
    as [(H1 & _) H2].
  split; [split; assumption|]. split; [exact H1|].
  exact (proj1 (proj2 (H2 Hb))).
Defined.

Lemma failed_request_shows_message_witness :
  let req := {| req_input := lit "milk"; req_isReroute := false |} in
  let st := setError (Some (lit "Microphone access unavailable."))
              (holding examplePlan) in
  (attempt JSON.parse JSON.truthy OS noJsonResponse
   = Throw (Error ErrandOS.noPlanData) /\
   attempt JSON.parse JSON.truthy OS (Throw Nullish) = Throw Nullish) /\
  error (settle JSON.parse JSON.truthy OS req noJsonResponse st)
  = Some ErrandOS.noPlanData /\
  error (settle JSON.parse JSON.truthy OS req (Throw Nullish) st)
  = Some (lit "Microphone access unavailable.").
Proof.
  intros req st.
  assert (Hfail : attempt JSON.parse JSON.truthy OS noJsonResponse
                  = Throw (Error ErrandOS.noPlanData))
    by (vm_compute; reflexivity).
  assert (Hnull : attempt JSON.parse JSON.truthy OS (Throw Nullish)
                  = Throw Nullish)
    by reflexivity.
  split; [now split|]. split.
  - exact (proj1 (@failed_request_shows_message JSON.value JSON.parse
                    JSON.truthy OS req noJsonResponse st _ Hfail)).
  - exact (@failed_request_shows_message JSON.value JSON.parse
             JSON.truthy OS req (Throw Nullish) st _ Hnull).
Defined.

Lemma submit_button_agrees_with_guard_witness :
  submitDisabled (holding examplePlan) = false /\
  exists st1 req,
    generatePlan_begin false (holding examplePlan) = Some (st1, req) /\
    req_input req = lit "milk, stamps".
Proof.
  assert (H : submitDisabled (holding examplePlan) = false) by reflexivity.
  split; [exact H|].
  destruct (proj1 (submit_button_agrees_with_guard (holding examplePlan)) H)
    as (st1 & req & Hb & Hi & _).
  exists st1, req. split; [exact Hb | exact Hi].
Defined.

Lemma os_commits_truthy_plans_only_witness :
  attempt JSON.parse JSON.truthy OS exampleResponse
  = Normal (examplePlan, []) /\
  JSON.truthy examplePlan = true.
Proof.
  assert (Hok : attempt JSON.parse JSON.truthy OS exampleResponse
                = Normal (examplePlan, []))
    by (vm_compute; reflexivity).
  split; [exact Hok|].
  exact (@os_commits_truthy_plans_only JSON.value JSON.parse JSON.truthy
           exampleResponse examplePlan [] Hok).
Defined.

(** ** The parsers at their edges *)

Lemma substring_swap (s : str) (a b : Z) : substring s a b = substring s b a.
Proof.
  unfold substring. now rewrite Z.min_comm, Z.max_comm.
Qed.

Lemma substring_prefix (pre rest : str) :
  substring (pre ++ rest) 0 (Z.of_nat (length pre)) = pre.
Proof.
  exact (substring_middle [] pre rest).
Qed.

Section ParserEdges.
Context {J : Type}.
Variable JSON_parse : str -> completion J.

(** X10: [ErrandOptimizer] on a response text with an opening brace and no
    closing brace.  The cut then runs backwards: what goes to the decoder
    is the text before the first opening brace, and whatever that decodes
    to is taken as the plan; only when nothing precedes the brace is the
    response refused for holding no plan data. *)
Theorem optimizer_decodes_text_before_unclosed_brace (pre post : str) :
  ~ In OPEN_BRACE pre ->
  ~ In CLOSE_BRACE (pre ++ OPEN_BRACE :: post) ->
  ErrandOptimizer.parseResponseText JSON_parse
    (Some (pre ++ OPEN_BRACE :: post))
  = if nonEmpty pre then JSON_parse pre
    else Throw (Error (lit "Critical: AI response contained no valid plan data.")).
Proof.
  intros Hpre Hclose. unfold ErrandOptimizer.parseResponseText.
  assert (Ht : orElse (Some (pre ++ OPEN_BRACE :: post)) []
               = pre ++ OPEN_BRACE :: post)
    by (unfold orElse; now destruct pre).
  rewrite Ht. unfold indexOf, lastIndexOf.
  rewrite indexOf_from_fresh by assumption.
  rewrite lastIndexOf_from_absent by assumption.
  rewrite substring_swap. cbn [Z.add]. rewrite substring_prefix.
  now destruct pre.
Qed.

(** X11: [extractJSON] of [ErrandOS] on a text whose last closing brace
    comes before its first opening brace.  Both braces are found, the cut
    runs backwards, and what goes to the decoder is the text strictly
    between the two braces. *)
Theorem extractJSON_decodes_between_reversed_braces (t a m b : str) :
  cleaned t = a ++ CLOSE_BRACE :: m ++ OPEN_BRACE :: b ->
  ~ In OPEN_BRACE a -> ~ In OPEN_BRACE m ->
  ~ In CLOSE_BRACE m -> ~ In CLOSE_BRACE b ->
  ErrandOS.extractJSON JSON_parse (Some t)
  = match JSON_parse m with
    | Normal v => Normal (Some v)
    | Throw _ => Normal None
    end.
Proof.
  intros Hc Ha Hm Hm' Hb. rewrite extractJSON_extracted.
  unfold extracted, jsonSpan. rewrite Hc.
  assert (Hs : indexOf (a ++ CLOSE_BRACE :: m ++ OPEN_BRACE :: b) OPEN_BRACE
               = Z.of_nat (length (a ++ [CLOSE_BRACE]) + length m)).
  { unfold indexOf.
    replace (a ++ CLOSE_BRACE :: m ++ OPEN_BRACE :: b)
      with ((a ++ CLOSE_BRACE :: m) ++ OPEN_BRACE :: b)
      by (now rewrite <- app_assoc).
    rewrite indexOf_from_fresh.
    - rewrite !length_app. cbn [length]. lia.
    - intros Hin. apply in_app_or in Hin as [Hin|[Hin|Hin]];
        [tauto | discriminate Hin | tauto]. }
  assert (He : lastIndexOf (a ++ CLOSE_BRACE :: m ++ OPEN_BRACE :: b)
                 CLOSE_BRACE
               = Z.of_nat (length a)).
  { unfold lastIndexOf. rewrite lastIndexOf_from_fresh; [lia|].
    intros Hin. apply in_app_or in Hin as [Hin|[Hin|Hin]];
      [tauto | discriminate Hin | tauto]. }
  rewrite Hs, He.
  replace (_ =? -1)%Z with false by (symmetry; apply Z.eqb_neq; lia).
  replace (_ =? 0)%Z with false by (symmetry; apply Z.eqb_neq; lia).
  cbn [orb]. rewrite substring_swap.
  replace (a ++ CLOSE_BRACE :: m ++ OPEN_BRACE :: b)
    with ((a ++ [CLOSE_BRACE]) ++ m ++ OPEN_BRACE :: b)
    by (now rewrite <- app_assoc).
  replace (Z.of_nat (length a) + 1)%Z
    with (Z.of_nat (length (a ++ [CLOSE_BRACE])))
    by (rewrite length_app; cbn [length]; lia).
  rewrite Nat2Z.inj_add, substring_middle.
  now destruct (JSON_parse m).
Qed.

End ParserEdges.

Lemma optimizer_decodes_text_before_unclosed_brace_witness :
  let pre := lit "12 " in
  let post := lit " still thinking" in
  (~ In OPEN_BRACE pre /\ ~ In CLOSE_BRACE (pre ++ OPEN_BRACE :: post)) /\
  ErrandOptimizer.parseResponseText JSON.parse
    (Some (pre ++ OPEN_BRACE :: post))
  = Normal (JSON.Number (lit "12")).
Proof.
  intros pre post.
  assert (Hpre : ~ In OPEN_BRACE pre)
    by (apply notIn_existsb; vm_compute; reflexivity).
  assert (Hclose : ~ In CLOSE_BRACE (pre ++ OPEN_BRACE :: post))
    by (apply notIn_existsb; vm_compute; reflexivity).
  split; [split; assumption|].
  exact (@optimizer_decodes_text_before_unclosed_brace JSON.value JSON.parse
           pre post Hpre Hclose).
Defined.

Lemma extractJSON_decodes_between_reversed_braces_witness :
  let t := jlit "done } 'see you' { more" in
  (cleaned t = lit "done " ++ CLOSE_BRACE :: jlit " 'see you' "
               ++ OPEN_BRACE :: lit " more" /\
   ~ In OPEN_BRACE (lit "done ") /\ ~ In OPEN_BRACE (jlit " 'see you' ") /\
   ~ In CLOSE_BRACE (jlit " 'see you' ") /\ ~ In CLOSE_BRACE (lit " more")) /\
  ErrandOS.extractJSON JSON.parse (Some t)
  = Normal (Some (JSON.String (lit "see you"))).
Proof.
  intros t.
  assert (Hc : cleaned t = lit "done " ++ CLOSE_BRACE :: jlit " 'see you' "
                           ++ OPEN_BRACE :: lit " more")
    by (vm_compute; reflexivity).
  assert (H1 : ~ In OPEN_BRACE (lit "done "))
    by (apply notIn_existsb; vm_compute; reflexivity).
  assert (H2 : ~ In OPEN_BRACE (jlit " 'see you' "))
    by (apply notIn_existsb; vm_compute; reflexivity).
  assert (H3 : ~ In CLOSE_BRACE (jlit " 'see you' "))
    by (apply notIn_existsb; vm_compute; reflexivity).
  assert (H4 : ~ In CLOSE_BRACE (lit " more"))
    by (apply notIn_existsb; vm_compute; reflexivity).
  split; [repeat split; assumption|].
  exact (@extractJSON_decodes_between_reversed_braces JSON.value JSON.parse
           t _ _ _ Hc H1 H2 H3 H4).
Defined.

(** ** Citations, further *)





(** ** The directions link, further *)


Lemma encodeURIComponent_surrogateFree s :
  surrogateFree s = true -> exists r, encodeURIComponent s = Normal r.
Proof.
  induction s as [|c s IH]; intros Hfree; [now exists []|].
  cbn [surrogateFree forallb] in Hfree.
  apply andb_true_iff in Hfree as [Hc Hs].
  destruct (IH Hs) as [r Hr]. rewrite encodeURIComponent_cons, Hr.
  unfold isSurrogate in Hc. apply negb_true_iff, orb_false_iff in Hc.
  destruct Hc as [Hhi Hlo]. rewrite Hhi, Hlo. cbn [bind].
  destruct (uriUnreserved c); eauto.
Qed.


Lemma mapM_total (A B : Type) (f : A -> completion B) : forall l,
  Forall (fun a => exists b, f a = Normal b) l ->
  exists bs, mapM f l = Normal bs.
Proof.
  induction 1 as [|a l [b Hb] _ [bs IH]]; [now exists []|].
  exists (b :: bs). cbn [mapM]. rewrite Hb. cbn [bind]. now rewrite IH.
Qed.

Section LinkEdges.
Variable Number_toString : Q -> str.
Variable showNumber : str -> str.




(** X15: when every stop of a held plan has an address text without
    surrogate code units, the directions link is always produced: the
    function returns, and what it returns begins with the base URL. *)
Theorem directions_link_total_without_surrogates
    (st : State JSON.value) (p : JSON.value) (elems : list JSON.value) :
  plan st = Some p ->
  property (lit "stops") p = Some (JSON.Array elems) ->
  Forall (fun s => exists a, addressText showNumber s = Normal a /\
                             surrogateFree a = true) elems ->
  exists link,
    getMultiStopMapsUrl Number_toString showNumber st = Normal link /\
    startsWith base link = true.
Proof.
  intros Hp Hs Hfree.
  destruct (mapM_total (escapeStop showNumber) (l := elems))
    as [escaped Hesc].
  { eapply Forall_impl; [|exact Hfree]. intros s (a & Ha & Hfa).
    unfold escapeStop. rewrite Ha. cbn [bind].
    now apply encodeURIComponent_surrogateFree. }
  rewrite (link_of_stops _ _ _ Hp Hs), Hesc. cbn [bind].
  eexists. split; [reflexivity|].
  generalize (showCoordinate Number_toString (option_map lat (location st))
              ++ lit "," ++
              showCoordinate Number_toString (option_map lng (location st))
              ++ lit "/").
  intros o. generalize (join (lit "/") escaped). intros j.
  unfold base. vm_compute (lit "https://www.google.com/maps/dir/").
  cbn [app startsWith]. rewrite !N.eqb_refl. reflexivity.
Qed.

End LinkEdges.


Lemma directions_link_total_without_surrogates_witness :
  let elems := [demoStop "1" "1 Main St"; demoStop "2" "5 Oak Ave/Suite 2";
                JSON.Object [(lit "address", JSON.Number (lit "100"))];
                JSON.String (lit "Depot")] in
  let st := holding (demoPlan (JSON.Array elems)) in
  (plan st = Some (demoPlan (JSON.Array elems)) /\
   property (lit "stops") (demoPlan (JSON.Array elems))
   = Some (JSON.Array elems) /\
   map (addressText showLexeme) elems
   = [Normal (lit "1 Main St"); Normal (lit "5 Oak Ave/Suite 2");
      Normal (lit "100"); Normal (lit "undefined")]) /\
  exists link,
    getMultiStopMapsUrl showFallback showLexeme st = Normal link /\
    startsWith base link = true.
Proof.
  intros elems st.
  assert (Hfree : Forall (fun s => exists a,
                            addressText showLexeme s = Normal a /\
                            surrogateFree a = true) elems)
    by (repeat constructor; eexists; split; reflexivity).
  split; [repeat split|].
  exact (@directions_link_total_without_surrogates showFallback showLexeme st
           (demoPlan (JSON.Array elems)) elems eq_refl eq_refl Hfree).
Defined.

(** ** The outbound request *)

Lemma occurs_nil (s : str) : occurs [] s = true.
Proof. now destruct s. Qed.

Lemma startsWith_app (pat s b : str) :
  startsWith pat s = true -> startsWith pat (s ++ b) = true.
Proof.
  revert s. induction pat as [|p pat IH]; intros s H; [reflexivity|].
  destruct s as [|c s]; [discriminate|]. cbn in *.
  apply andb_true_iff in H as [-> H]. now apply IH.
Qed.

Lemma startsWith_self (pat b : str) : startsWith pat (pat ++ b) = true.
Proof.
  induction pat as [|p pat IH]; [reflexivity|]. cbn.
  now rewrite N.eqb_refl.
Qed.

Lemma occurs_start (pat s : str) :
  startsWith pat s = true -> occurs pat s = true.
Proof. destruct s; cbn; [trivial | now intros ->]. Qed.

Lemma occurs_app_r (pat a s : str) :
  occurs pat s = true -> occurs pat (a ++ s) = true.
Proof.
  intros H. induction a as [|x a IH]; [assumption|].
  cbn [app occurs]. rewrite IH. apply orb_true_r.
Qed.

Lemma occurs_app_l' (pat s b : str) :
  occurs pat s = true -> occurs pat (s ++ b) = true.
Proof.
  induction s as [|c s IH]; cbn [occurs]; intros H.
  - destruct pat; [apply occurs_nil | discriminate].
  - cbn [app occurs]. apply orb_true_iff in H as [H|H].
    + change (c :: s ++ b) with ((c :: s) ++ b).
      now rewrite startsWith_app.
    + rewrite IH by assumption. apply orb_true_r.
Qed.

Lemma occurs_middle (pat a b : str) : occurs pat (a ++ pat ++ b) = true.
Proof. apply occurs_app_r, occurs_start, startsWith_self. Qed.

Lemma occurs_in_join (pat sep l : str) (ls : list str) :
  In l ls -> occurs pat l = true -> occurs pat (join sep ls) = true.
Proof.
  intros Hin Hl. destruct ls as [|p rest]; [destruct Hin|].
  rewrite join_cons_concat. destruct Hin as [->|Hin].
  - now apply occurs_app_l'.
  - apply occurs_app_r. induction rest as [|r rest IH]; [destruct Hin|].
    cbn [map concat]. destruct Hin as [->|Hin].
    + apply occurs_app_l'. now apply occurs_app_r.
    + apply occurs_app_r. now apply IH.
Qed.

Ltac pick_line :=
  first [ left; solve [rewrite ?app_nil_r, <- ?app_assoc; reflexivity]
        | right; pick_line ].

Section Composer.
Context {J : Type}.
Variable Number_toString : Q -> str.
Variable now : str.

Lemma prompt_lines (c : component) (st : State J) (isReroute : bool) :
  let p := prompt Number_toString now c st isReroute in
  occurs (jlit "User Request: '" ++ input st ++ jlit "'") p = true /\
  occurs (lit "Origin Coords: "
          ++ showCoordinate Number_toString (option_map lat (location st))
          ++ lit ", "
          ++ showCoordinate Number_toString (option_map lng (location st)))
    p = true /\
  occurs (lit "Current Time: " ++ now) p = true /\
  occurs (lit "Operational Mode: "
          ++ (if isReroute then lit "REROUTE" else lit "PLAN_INIT")) p = true.
Proof.
  cbv zeta. unfold prompt.
  destruct c; [unfold promptOS | unfold promptOptimizer]; repeat split.
  1-3, 5-7: eapply occurs_in_join;
    [ | apply (occurs_middle _ (lit "        ") []) ]; pick_line.
  - eapply occurs_in_join;
      [ | apply (occurs_middle _ (lit "        ") []) ].
    destruct isReroute; pick_line.
  - destruct isReroute.
    + eapply occurs_in_join;
        [ | apply (occurs_middle _ (lit "        ")
                     (lit " (Dynamic adjustment for traffic and business closures)")) ];
        pick_line.
    + eapply occurs_in_join;
        [ | apply (occurs_middle _ (lit "        ") []) ]; pick_line.
Qed.

(** X16: the prompt of either component carries the request text
    verbatim between double quotes (nothing in it is escaped), the two
    coordinates as they are rendered, the time text, and the mode tag:
    [REROUTE] for a reroute, [PLAN_INIT] otherwise. *)
Theorem prompt_embeds_request
    (c : component) (st : State J) (isReroute : bool) :
  let p := prompt Number_toString now c st isReroute in
  occurs (jlit "User Request: '" ++ input st ++ jlit "'") p = true /\
  occurs (lit "Origin Coords: "
          ++ showCoordinate Number_toString (option_map lat (location st))
          ++ lit ", "
          ++ showCoordinate Number_toString (option_map lng (location st)))
    p = true /\
  occurs (lit "Current Time: " ++ now) p = true /\
  occurs (lit "Operational Mode: "
          ++ (if isReroute then lit "REROUTE" else lit "PLAN_INIT")) p = true.
Proof. apply prompt_lines. Qed.

End Composer.

Section ComposerEdges.
Context {J : Type}.
Variable Number_toString : Q -> str.
Variable now : str.

(** X17: what is sent to the service depends on the text, the stored
    location, the time text and the mode only.  The held plan, the
    citations, the history and the error never enter the request, also
    not for a reroute. *)
Theorem request_ignores_plan_and_history
    (c : component) (st st' : State J) (isReroute : bool) :
  input st = input st' ->
  location st = location st' ->
  generateContentParameters Number_toString now c st isReroute
  = generateContentParameters Number_toString now c st' isReroute.
Proof.
  intros Hi Hl. unfold generateContentParameters, prompt.
  destruct c; unfold promptOS, promptOptimizer; now rewrite Hi, Hl.
Qed.

(** X18: the location hint given to the grounding tool.  Each stored
    coordinate is sent as it is unless it is zero; a zero latitude is
    replaced by 37.7749 and a zero longitude by -122.4194, each on its
    own, so that the hint can pair a stored coordinate with a fallback
    one, while the prompt text still states the stored pair.  With no
    location stored the hint is the fallback pair. *)
Theorem grounding_hint_replaces_zero_coordinates
    (c : component) (st : State J) (isReroute : bool) :
  let ps := generateContentParameters Number_toString now c st isReroute in
  (forall loc : Location,
     location st = Some loc ->
     latitude ps = (if Qeq_bool (lat loc) 0 then 37.7749%Q else lat loc) /\
     longitude ps
     = (if Qeq_bool (lng loc) 0 then (-122.4194)%Q else lng loc) /\
     occurs (lit "Origin Coords: " ++ Number_toString (lat loc) ++ lit ", "
             ++ Number_toString (lng loc)) (contents ps) = true) /\
  (location st = None ->
   latitude ps = 37.7749%Q /\ longitude ps = (-122.4194)%Q).
Proof.
  cbv zeta. split.
  - intros loc Hloc.
    cbn [generateContentParameters latitude longitude contents].
    rewrite Hloc. cbn [option_map orNumber]. repeat split.
    destruct (prompt_lines Number_toString now c st isReroute)
      as (_ & H & _).
    rewrite Hloc in H. exact H.
  - intros Hloc. cbn [generateContentParameters latitude longitude].
    now rewrite Hloc.
Qed.

End ComposerEdges.

Lemma request_ignores_plan_and_history_witness :
  let st := holding examplePlan in
  let st' := setPlan None (setHistory (fun _ => []) (setGroundingLinks [] st)) in
  (input st = input st' /\ location st = location st') /\
  generateContentParameters showFallback (lit "10:00:00 AM") OS st true
  = generateContentParameters showFallback (lit "10:00:00 AM") OS st' true.
Proof.
  intros st st'. split; [split; reflexivity|].
  exact (@request_ignores_plan_and_history JSON.value showFallback
           (lit "10:00:00 AM") OS st st' true eq_refl eq_refl).
Defined.

Lemma grounding_hint_replaces_zero_coordinates_witness :
  let onEquator := setLocation (Some equatorLocation) (holding examplePlan) in
  let onMeridian :=
    setLocation (Some meridianLocation) (holding examplePlan) in
  let unlocated := setLocation None (holding examplePlan) in
  let hint (st : State JSON.value) :=
    let ps :=
      generateContentParameters showFallback (lit "10:00:00 AM") OS st false in
    (latitude ps, longitude ps) in
  (location onEquator = Some equatorLocation /\
   location onMeridian = Some meridianLocation /\
   location unlocated = None) /\
  hint onEquator = (37.7749%Q, 9.45%Q) /\
  hint onMeridian = (51.4779%Q, (-122.4194)%Q) /\
  hint unlocated = (37.7749%Q, (-122.4194)%Q).
Proof.
  intros onEquator onMeridian unlocated hint.
  split; [repeat split|].
  destruct (proj1 (@grounding_hint_replaces_zero_coordinates JSON.value
                     showFallback (lit "10:00:00 AM") OS onEquator false)
              equatorLocation eq_refl) as (E1 & E2 & _).
  destruct (proj1 (@grounding_hint_replaces_zero_coordinates JSON.value
                     showFallback (lit "10:00:00 AM") OS onMeridian false)
              meridianLocation eq_refl) as (M1 & M2 & _).
  destruct (proj2 (@grounding_hint_replaces_zero_coordinates JSON.value
                     showFallback (lit "10:00:00 AM") OS unlocated false)
              eq_refl) as (U1 & U2).
  unfold hint. rewrite E1, E2, M1, M2, U1, U2. repeat split.
Defined.

(** ** Pages *)

Lemma Forall_removeNth (A : Type) (P : A -> Prop) : forall k (l : list A),
  Forall P l -> Forall P (removeNth k l).
Proof.
  intros k l H. revert k. induction H as [|x l Hx Hl IH]; intros k.
  - now destruct k.
  - destruct k; cbn; [assumption | constructor; auto].
Qed.

Lemma Forall_firstn' (A : Type) (P : A -> Prop) : forall n (l : list A),
  Forall P l -> Forall P (firstn n l).
Proof.
  intros n l H. revert n. induction H as [|x l Hx Hl IH]; intros n.
  - now destruct n.
  - destruct n; cbn; constructor; auto.
Qed.

Section PageFacts.
Context {J : Type}.
Variable JSON_parse : str -> completion J.
Variable truthy : J -> bool.
Variable recognitionRef : option SpeechRecognition.
Variable toFixed3 : Q -> str.

Lemma launch_invariant isReroute (pg : Page J) :
  pageInvariant pg -> pageInvariant (launch isReroute pg).
Proof.
  intros (Hh & Hf & Hb). unfold launch, generatePlan_begin.
  destruct (nonEmpty (trim (input (view pg)))) eqn:Hne, isReroute;
    cbn [negb andb]; try (now repeat split).
  all: repeat split; cbn [view inFlight];
    [ assumption
    | apply Forall_app; split; [assumption|];
      constructor; [cbn; now intros | constructor]
    | intros _ E; now apply app_eq_nil in E as [_ E] ].
Qed.

Lemma answer_invariant c k service (pg : Page J) :
  pageInvariant pg ->
  pageInvariant (interact JSON_parse truthy recognitionRef toFixed3 c pg
                   (Answer k service)).
Proof.
  intros (Hh & Hf & Hb). cbn [interact].
  destruct (nth_error (inFlight pg) k) as [req|] eqn:Hk; [|now repeat split].
  assert (Hreq : req_isReroute req = false ->
                 nonEmpty (trim (req_input req)) = true).
  { apply nth_error_In in Hk. now apply (proj1 (Forall_forall _ _) Hf). }
  repeat split; cbn [view inFlight].
  - destruct (attempt JSON_parse truthy c service) as [[p srcs]|e] eqn:Ha.
    + erewrite settle_success by eassumption.
      cbn [history setIsLoading]. rewrite history_commit.
      destruct (req_isReroute req); [assumption|].
      apply Forall_firstn'. constructor; auto.
    + now erewrite settle_failure by eassumption.
  - now apply Forall_removeNth.
  - intros Hbusy. exfalso.
    destruct (attempt JSON_parse truthy c service) as [[p srcs]|e] eqn:Ha.
    + erewrite settle_success in Hbusy by eassumption. discriminate Hbusy.
    + erewrite settle_failure in Hbusy by eassumption. discriminate Hbusy.
Qed.

Lemma interact_invariant c a (pg : Page J) :
  pageInvariant pg ->
  pageInvariant (interact JSON_parse truthy recognitionRef toFixed3 c pg a).
Proof.
  intros Hinv. destruct a; try (now apply answer_invariant).
  all: cbn [interact].
  - exact Hinv.
  - destruct (nth_error _ i); exact Hinv.
  - destruct Hinv as (Hh & Hf & Hb). unfold handled. cbn [step].
    unfold toggleListening.
    destruct (isListening (view pg));
      [destruct (optionalCall recognitionRef stop)
      | destruct (optionalCall recognitionRef start)];
      now repeat split.
  - destruct (submitDisabled (view pg)); [exact Hinv|].
    now apply launch_invariant.
  - destruct (planTruthy truthy (view pg)); [|exact Hinv].
    now apply launch_invariant.
  - exact Hinv.
  - exact Hinv.
  - exact Hinv.
  - destruct Hinv as (Hh & Hf & Hb). unfold handled. cbn [step].
    destruct c; now repeat split.
Qed.

Lemma browse_invariant c acts :
  pageInvariant (browse JSON_parse truthy recognitionRef toFixed3 c acts).
Proof.
  unfold browse.
  assert (H : forall pg : Page J, pageInvariant pg ->
                pageInvariant
                  (fold_left
                     (interact JSON_parse truthy recognitionRef toFixed3 c)
                     acts pg)).
  { induction acts as [|a acts IH]; intros pg Hpg; [assumption|].
    apply IH. now apply interact_invariant. }
  apply H. unfold firstPage, pageInvariant. cbn [view inFlight].
  destruct c; repeat split; try constructor; discriminate.
Qed.

(** X19: no blank text ever enters the request history.  On every page
    that the controls of either component can lead to, each history entry
    holds a character that is not white space, however requests and
    answers interleave. *)
Theorem history_entries_are_never_blank
    (c : component) (acts : list interaction) :
  Forall (fun h => nonEmpty (trim h) = true)
    (history
       (view (browse JSON_parse truthy recognitionRef toFixed3 c acts))).
Proof. apply browse_invariant. Qed.

(** X20: the busy indicator is never left on with nothing to wait for:
    on every page that the controls can lead to, if [isLoading] holds
    then some request is still in flight. *)
Theorem busy_indicator_has_request_in_flight
    (c : component) (acts : list interaction) :
  let pg := browse JSON_parse truthy recognitionRef toFixed3 c acts in
  isLoading (view pg) = true -> inFlight pg <> [].
Proof. apply browse_invariant. Qed.

(** X21: a click on a history entry puts that entry into the text field
    and changes nothing else; as the entry is never blank, the submit
    button is then enabled unless a request keeps the page busy. *)
Theorem recalled_entry_can_be_resubmitted
    (c : component) (acts : list interaction) (i : nat) (h : str) :
  let pg := browse JSON_parse truthy recognitionRef toFixed3 c acts in
  let pg' := interact JSON_parse truthy recognitionRef toFixed3 c pg
               (Recall i) in
  nth_error (history (view pg)) i = Some h ->
  view pg' = setInput h (view pg) /\
  inFlight pg' = inFlight pg /\
  submitDisabled (view pg') = isLoading (view pg).
Proof.
  cbv zeta. intros Hi. cbn [interact]. rewrite Hi.
  unfold handled. cbn [step view inFlight]. repeat split.
  unfold submitDisabled. cbn [setInput isLoading input].
  assert (Hh : nonEmpty (trim h) = true).
  { apply nth_error_In in Hi.
    exact (proj1 (Forall_forall _ _)
             (proj1 (browse_invariant c acts)) h Hi). }
  rewrite Hh. apply orb_false_r.
Qed.

End PageFacts.

Lemma busy_indicator_has_request_in_flight_witness :
  let pg := browse JSON.parse JSON.truthy None showFallback OS
              [TypeText (lit "milk"); ClickSubmit] in
  isLoading (view pg) = true /\ inFlight pg <> [].
Proof.
  intros pg.
  assert (Hbusy : isLoading (view pg) = true) by (vm_compute; reflexivity).
  split; [exact Hbusy|].
  exact (@busy_indicator_has_request_in_flight JSON.value JSON.parse
           JSON.truthy None showFallback OS
           [TypeText (lit "milk"); ClickSubmit] Hbusy).
Defined.

Lemma recalled_entry_can_be_resubmitted_witness :
  let acts := [TypeText (lit "milk"); ClickSubmit; Answer 0 exampleResponse;
               TypeText []] in
  let pg := browse JSON.parse JSON.truthy None showFallback OS acts in
  nth_error (history (view pg)) 0 = Some (lit "milk") /\
  submitDisabled (view pg) = true /\
  submitDisabled
    (view (interact JSON.parse JSON.truthy None showFallback OS pg (Recall 0)))
  = false.
Proof.
  intros acts pg.
  assert (Hi : nth_error (history (view pg)) 0 = Some (lit "milk"))
    by (vm_compute; reflexivity).
  split; [exact Hi|]. split; [vm_compute; reflexivity|].
  destruct (@recalled_entry_can_be_resubmitted JSON.value JSON.parse
              JSON.truthy None showFallback OS acts 0 (lit "milk") Hi)
    as (_ & _ & H).
  exact (eq_trans H eq_refl).
Defined.

(** ** Fence markers inside the object *)

Lemma startsWith_head_mismatch (p c : code_unit) (pat s : str) :
  p <> c -> startsWith (p :: pat) (c :: s) = false.
Proof.
  intros H. cbn. destruct (N.eqb_spec p c); [contradiction | reflexivity].
Qed.

Lemma occurs_skip_foreign (p : code_unit) (pat x y : str) :
  ~ In p x -> occurs (p :: pat) (x ++ y) = occurs (p :: pat) y.
Proof.
  intros Hx. induction x as [|c x IH]; [reflexivity|].
  cbn [app occurs]. rewrite startsWith_head_mismatch.
  - apply IH. intros H. apply Hx. now right.
  - intros ->. apply Hx. now left.
Qed.

Lemma removeAll_from_skip_foreign (p : code_unit) (pat x r : str) :
  ~ In p x ->
  removeAll_from (p :: pat) 0 (x ++ r) = x ++ removeAll_from (p :: pat) 0 r.
Proof.
  intros Hx. induction x as [|c x IH]; [reflexivity|].
  cbn [app removeAll_from]. rewrite startsWith_head_mismatch.
  - f_equal. apply IH. intros H. apply Hx. now right.
  - intros ->. apply Hx. now left.
Qed.

Lemma removeAll_from_skipping (pat r : str) : forall x,
  removeAll_from pat (length x) (x ++ r) = removeAll_from pat 0 r.
Proof.
  induction x as [|c x IH]; [reflexivity|]. cbn. exact IH.
Qed.

Lemma removeAll_from_match (p : code_unit) (pat r : str) :
  removeAll_from (p :: pat) 0 ((p :: pat) ++ r)
  = removeAll_from (p :: pat) 0 r.
Proof.
  cbn [app removeAll_from].
  change (p :: pat ++ r) with ((p :: pat) ++ r).
  rewrite startsWith_self. cbn [length Nat.pred].
  apply removeAll_from_skipping.
Qed.

Lemma occurs_foreign (p : code_unit) (pat x : str) :
  ~ In p x -> occurs (p :: pat) x = false.
Proof.
  intros Hx. rewrite <- (app_nil_r x), occurs_skip_foreign by assumption.
  reflexivity.
Qed.

Lemma no_fence_json_in_plain_fence (rest : str) :
  ~ In BACKTICK rest -> startsWith (lit "json") rest = false ->
  occurs FENCE_JSON (FENCE ++ rest) = false.
Proof.
  intros Hr Hj.
  assert (Hocc : occurs FENCE_JSON rest = false)
    by (exact (@occurs_foreign BACKTICK (lit "``json") rest Hr)).
  assert (H2 : startsWith FENCE_JSON (BACKTICK :: BACKTICK :: rest) = false).
  { destruct rest as [|c rest]; [reflexivity|].
    change (startsWith FENCE_JSON (BACKTICK :: BACKTICK :: c :: rest))
      with ((BACKTICK =? c)%N && startsWith (lit "json") rest).
    replace (BACKTICK =? c)%N with false; [reflexivity|].
    symmetry. apply N.eqb_neq. intros <-. apply Hr. now left. }
  assert (H1 : startsWith FENCE_JSON (BACKTICK :: rest) = false).
  { destruct rest as [|c rest]; [reflexivity|].
    change (startsWith FENCE_JSON (BACKTICK :: c :: rest))
      with ((BACKTICK =? c)%N
            && startsWith (BACKTICK :: lit "json") rest).
    replace (BACKTICK =? c)%N with false; [reflexivity|].
    symmetry. apply N.eqb_neq. intros <-. apply Hr. now left. }
  change (FENCE ++ rest) with (BACKTICK :: BACKTICK :: BACKTICK :: rest).
  cbn [occurs]. rewrite Hocc, H1, H2.
  change (startsWith FENCE_JSON (BACKTICK :: BACKTICK :: BACKTICK :: rest))
    with (startsWith (lit "json") rest).
  now rewrite Hj.
Qed.

Lemma plain_has_no_FENCE (x : str) :
  ~ In BACKTICK x -> occurs FENCE x = false.
Proof. exact (@occurs_foreign BACKTICK (lit "``") x). Qed.

Lemma plain_has_no_FENCE_JSON (x : str) :
  ~ In BACKTICK x -> occurs FENCE_JSON x = false.
Proof. exact (@occurs_foreign BACKTICK (lit "``json") x). Qed.

Lemma removeAll_FENCE (s : str) :
  removeAll FENCE s = removeAll_from FENCE 0 s.
Proof. reflexivity. Qed.

Lemma removeAll_FENCE_JSON (s : str) :
  removeAll FENCE_JSON s = removeAll_from FENCE_JSON 0 s.
Proof. reflexivity. Qed.

Lemma trim_braced (mid : str) : trim (braced mid) = braced mid.
Proof.
  pose proof (trim_around [] mid []) as H.
  change (trimStart []) with (@nil code_unit) in H.
  change (trimEnd []) with (@nil code_unit) in H.
  cbn [app] in H. now rewrite app_nil_r in H.
Qed.

Lemma cleaned_plain (mid : str) :
  ~ In BACKTICK mid -> cleaned (braced mid) = braced mid.
Proof.
  intros Hm.
  assert (Hb : ~ In BACKTICK (braced mid)).
  { unfold braced. intros [H|H]; [discriminate H|].
    apply in_app_or in H as [H|[H|[]]]; [tauto | discriminate H]. }
  unfold cleaned. rewrite removeAll_FENCE_JSON, removeAll_FENCE.
  rewrite (@removeAll_from_absent FENCE_JSON)
    by (now apply plain_has_no_FENCE_JSON).
  rewrite (@removeAll_from_absent FENCE) by (now apply plain_has_no_FENCE).
  apply trim_braced.
Qed.

Section FencesInside.
Context {J : Type}.
Variable JSON_parse : str -> completion J.

(** X22: [extractJSON] of [ErrandOS] deletes fence markers wherever they
    stand, also inside the object.  For an object text with one fence
    marker in it, with or without the [json] tag, what goes to the
    decoder is the object with the marker cut out, so a string value that
    held the marker is decoded without it; [ErrandOptimizer] hands the
    object to the decoder as it is. *)
Theorem extractJSON_deletes_fence_inside_object (a b : str) :
  ~ In BACKTICK a -> ~ In BACKTICK b ->
  let decode (s : str) :=
    match JSON_parse s with
    | Normal v => Normal (Some v)
    | Throw _ => Normal None
    end in
  ErrandOS.extractJSON JSON_parse (Some (braced (a ++ FENCE_JSON ++ b)))
  = decode (braced (a ++ b)) /\
  (startsWith (lit "json") b = false ->
   ErrandOS.extractJSON JSON_parse (Some (braced (a ++ FENCE ++ b)))
   = decode (braced (a ++ b))) /\
  ErrandOptimizer.parseResponseText JSON_parse
    (Some (braced (a ++ FENCE ++ b)))
  = JSON_parse (braced (a ++ FENCE ++ b)).
Proof.
  intros Ha Hb decode.
  assert (Hab : ~ In BACKTICK (a ++ b)).
  { intros H. apply in_app_or in H. tauto. }
  assert (Hrest : ~ In BACKTICK (b ++ [CLOSE_BRACE])).
  { intros H. apply in_app_or in H as [H|[H|[]]]; [tauto | discriminate H]. }
  assert (Hhead : ~ In BACKTICK (OPEN_BRACE :: a)).
  { intros [H|H]; [discriminate H | tauto]. }
  assert (Hplain : ErrandOS.extractJSON JSON_parse (Some (braced (a ++ b)))
                   = decode (braced (a ++ b))).
  { pose proof (@extractJSON_around J JSON_parse [] (a ++ b) []
                  (fun H => H) (fun H => H)
                  (@plain_has_no_FENCE _ Hab)) as H.
    cbn [app] in H. now rewrite app_nil_r in H. }
  assert (Hclean : forall marker,
             cleaned (braced (a ++ marker ++ b)) = braced (a ++ b) ->
             ErrandOS.extractJSON JSON_parse
               (Some (braced (a ++ marker ++ b)))
             = decode (braced (a ++ b))).
  { intros marker Hc. rewrite <- Hplain, !extractJSON_extracted.
    unfold extracted, jsonSpan. now rewrite Hc, cleaned_plain. }
  assert (Hshape : forall marker,
             braced (a ++ marker ++ b)
             = (OPEN_BRACE :: a) ++ marker ++ (b ++ [CLOSE_BRACE])).
  { intros marker. unfold braced. cbn [app]. now rewrite <- !app_assoc. }
  assert (Hback : (OPEN_BRACE :: a) ++ b ++ [CLOSE_BRACE] = braced (a ++ b)).
  { unfold braced. cbn [app]. now rewrite <- app_assoc. }
  split; [|split].
  - apply Hclean. unfold cleaned. rewrite Hshape.
    rewrite removeAll_FENCE_JSON.
    rewrite (@removeAll_from_skip_foreign BACKTICK (lit "``json"))
      by assumption.
    rewrite (removeAll_from_match BACKTICK (lit "``json")).
    rewrite (@removeAll_from_absent FENCE_JSON)
      by (now apply plain_has_no_FENCE_JSON).
    rewrite Hback, removeAll_FENCE.
    rewrite (@removeAll_from_absent FENCE)
      by (apply plain_has_no_FENCE; rewrite <- Hback; intros H;
          apply in_app_or in H; tauto).
    apply trim_braced.
  - intros Hj. apply Hclean. unfold cleaned. rewrite Hshape.
    rewrite removeAll_FENCE_JSON, removeAll_FENCE.
    rewrite (@removeAll_from_absent FENCE_JSON).
    + rewrite (@removeAll_from_skip_foreign BACKTICK (lit "``"))
        by assumption.
      rewrite (removeAll_from_match BACKTICK (lit "``")).
      rewrite (@removeAll_from_absent FENCE)
        by (now apply plain_has_no_FENCE).
      rewrite Hback. apply trim_braced.
    + rewrite (@occurs_skip_foreign BACKTICK (lit "``json")) by assumption.
      apply no_fence_json_in_plain_fence; [assumption|].
      rewrite (@startsWith_app_fresh CLOSE_BRACE); [assumption|].
      reflexivity.
  - pose proof (@parseResponseText_around J JSON_parse []
                  (a ++ FENCE ++ b) [] (fun H => H) (fun H => H)) as H.
    cbn [app] in H. now rewrite app_nil_r in H.
Qed.

End FencesInside.

Lemma extractJSON_deletes_fence_inside_object_witness :
  let a := jlit "'note':'type " in
  let b := jlit " first'" in
  (~ In BACKTICK a /\ ~ In BACKTICK b /\
   startsWith (lit "json") b = false) /\
  ErrandOS.extractJSON JSON.parse (Some (braced (a ++ FENCE ++ b)))
  = Normal (Some (JSON.Object
                    [(lit "note", JSON.String (lit "type  first"))])) /\
  ErrandOptimizer.parseResponseText JSON.parse
    (Some (braced (a ++ FENCE ++ b)))
  = Normal (JSON.Object [(lit "note", JSON.String (lit "type ``` first"))]).
Proof.
  intros a b.
  assert (Ha : ~ In BACKTICK a)
    by (apply notIn_existsb; vm_compute; reflexivity).
  assert (Hb : ~ In BACKTICK b)
    by (apply notIn_existsb; vm_compute; reflexivity).
  assert (Hj : startsWith (lit "json") b = false) by reflexivity.
  destruct (@extractJSON_deletes_fence_inside_object JSON.value JSON.parse
              a b Ha Hb) as (_ & Hos & Hopt).
  split; [repeat split; assumption|].
  split.
  - exact (eq_trans (Hos Hj) eq_refl).
  - exact (eq_trans Hopt eq_refl).
Defined.

(** ** The held plan *)

Section HeldPlan.
Context {J : Type}.
Variable JSON_parse : str -> completion J.
Variable truthy : J -> bool.
Variable recognitionRef : option SpeechRecognition.
Variable toFixed3 : Q -> str.

Lemma os_step_keeps_plan_truthy (st : State J) ev :
  planTruthy truthy st = true ->
  planTruthy truthy
    (step JSON_parse truthy recognitionRef toFixed3 OS st ev) = true.
Proof.
  intros Hshown.
  assert (Hsettle : forall r service s,
             planTruthy truthy s = true ->
             planTruthy truthy (settle JSON_parse truthy OS r service s)
             = true).
  { intros r service s Hs.
    destruct (attempt JSON_parse truthy OS service) as [[p srcs]|e] eqn:Ha.
    - erewrite settle_success by eassumption.
      apply os_attempt_truthy in Ha.
      unfold planTruthy, commit.
      destruct (req_isReroute r); cbn; exact Ha.
    - now erewrite settle_failure by eassumption. }
  destruct ev; cbn [step]; try assumption.
  - unfold toggleListening.
    destruct (isListening st);
      [destruct (optionalCall recognitionRef stop)
      | destruct (optionalCall recognitionRef start)]; assumption.
  - rewrite generate_begin. unfold generatePlan_begin.
    destruct (_ && _); [assumption|]. now apply Hsettle.
  - unfold generatePlan_begin. now destruct (_ && _).
  - now apply Hsettle.
Qed.

(** X23: [ErrandOS] never lets go of a plan.  Once the plan cell holds
    a truthy value, it holds a truthy value after every event of a
    session: no failed or successful request, voice or position
    callback, edit or toggle empties it or stores a falsy value, so the
    test that guards the plan panel keeps passing.  (Whether the panel
    can render the held value is another matter, outside this
    statement.) *)
Theorem os_held_plan_stays_truthy (evs : list event) (st : State J) :
  planTruthy truthy st = true ->
  planTruthy truthy
    (run JSON_parse truthy recognitionRef toFixed3 OS evs st) = true.
Proof.
  revert st. induction evs as [|ev evs IH]; intros st Hshown; [assumption|].
  apply IH. now apply os_step_keeps_plan_truthy.
Qed.

End HeldPlan.

Lemma os_held_plan_stays_truthy_witness :
  let evs := [Generate true noJsonResponse; Edit (lit "tea");
              Generate false (Throw TypeError); PositionError] in
  planTruthy JSON.truthy (holding examplePlan) = true /\
  planTruthy JSON.truthy
    (run JSON.parse JSON.truthy None showFallback OS evs
       (holding examplePlan)) = true.
Proof.
  intros evs. split; [reflexivity|].
  exact (@os_held_plan_stays_truthy JSON.value JSON.parse JSON.truthy None
           showFallback evs (holding examplePlan) eq_refl).
Defined.

(** ** The reference decoder *)

Lemma skip_ws_length s : (length (JSON.skip_ws s) <= length s)%nat.
Proof.
  induction s as [|c s IH]; [reflexivity|].
  cbn [JSON.skip_ws]. destruct (JSON.isJsonSpace c); cbn [length]; lia.
Qed.

Lemma skip_ws_cons s c r :
  JSON.skip_ws s = c :: r -> (length r < length s)%nat.
Proof.
  intros H. pose proof (skip_ws_length s) as L. rewrite H in L.
  cbn [length] in L. lia.
Qed.

Lemma string_body_length : forall s acc v r,
  JSON.string_body acc s = Some (v, r) -> (length r < length s)%nat.
Proof.
  assert (H : forall n s, (length s <= n)%nat -> forall acc v r,
             JSON.string_body acc s = Some (v, r) -> (length r < length s)%nat).
  { induction n as [|n IH]; intros s Hn acc v r.
    - destruct s; [discriminate | cbn [length] in Hn; lia].
    - destruct s as [|c s']; [discriminate|]. cbn [JSON.string_body length] in *.
      destruct (c =? 34)%N; [intros [= _ <-]; lia|].
      destruct (c =? 92)%N.
      + destruct s' as [|e s'']; [discriminate|]. cbn [length] in *.
        destruct (e =? 117)%N.
        * destruct s'' as [|h1 [|h2 [|h3 [|h4 s3]]]]; try discriminate.
          cbn [length] in *.
          destruct (JSON.hex4 h1 h2 h3 h4); [|discriminate].
          intros H. apply IH in H; lia.
        * destruct (JSON.simple_escape e); [|discriminate].
          intros H. apply IH in H; lia.
      + destruct (c <? 32)%N; [discriminate|].
        intros H. apply IH in H; lia. }
  intros s. exact (H (length s) s (le_n _)).
Qed.

Lemma span_digits_length : forall s d r,
  JSON.span_digits s = (d, r) -> length s = (length d + length r)%nat.
Proof.
  induction s as [|c s IH]; intros d r; cbn [JSON.span_digits].
  - now intros [= <- <-].
  - destruct (JSON.isDigit c).
    + destruct (JSON.span_digits s) as [d' r'] eqn:E. intros [= <- <-].
      cbn [length]. now rewrite (IH _ _ eq_refl).
    + now intros [= <- <-].
Qed.

Lemma lex_number_length s l r :
  JSON.lex_number s = Some (l, r) -> (length r < length s)%nat.
Proof.
  unfold JSON.lex_number.
  destruct (match s with
            | [] => ([], s)
            | c :: s' => if (c =? 45)%N then ([c], s') else ([], s)
            end) as [sign s1] eqn:Hsign.
  assert (L1 : (length s1 <= length s)%nat).
  { destruct s as [|c s']; [now injection Hsign as _ <-|].
    destruct (c =? 45)%N; injection Hsign as _ <-; cbn [length]; lia. }
  destruct (JSON.span_digits s1) as [int s2] eqn:Hint.
  apply span_digits_length in Hint.
  destruct int as [|d ds]; [discriminate|]. cbn [length] in Hint.
  destruct ((d =? 48)%N && nonEmpty ds); [discriminate|].
  match goal with
  | |- match ?X with _ => _ end = _ -> _ => destruct X as [[f s3]|] eqn:Hf
  end; [|discriminate].
  assert (L3 : (length s3 <= length s2)%nat).
  { destruct s2 as [|c s']; [now injection Hf as _ <-|].
    destruct (c =? 46)%N; [|now injection Hf as _ <-].
    destruct (JSON.span_digits s') as [f' r'] eqn:E.
    apply span_digits_length in E.
    destruct (nonEmpty f'); [|discriminate].
    injection Hf as _ <-. cbn [length]. lia. }
  match goal with
  | |- match ?X with _ => _ end = _ -> _ => destruct X as [[e s5]|] eqn:He
  end; [|discriminate].
  assert (L5 : (length s5 <= length s3)%nat).
  { destruct s3 as [|c s']; [now injection He as _ <-|].
    destruct ((c =? 101) || (c =? 69))%N; [|now injection He as _ <-].
    destruct (match s' with
              | [] => ([], s')
              | g :: s'' =>
                  if ((g =? 43) || (g =? 45))%N then ([g], s'') else ([], s')
              end) as [sg s4] eqn:Hsg.
    assert (L4 : (length s4 <= length s')%nat).
    { destruct s' as [|g s'']; [now injection Hsg as _ <-|].
      destruct ((g =? 43) || (g =? 45))%N; injection Hsg as _ <-;
        cbn [length]; lia. }
    destruct (JSON.span_digits s4) as [e' r'] eqn:E.
    apply span_digits_length in E.
    destruct (nonEmpty e'); [|discriminate].
    injection He as _ <-. cbn [length]. lia. }
  intros [= _ <-]. lia.
Qed.

Lemma keyword_consumes k v c s :
  (0 < String.length k)%nat ->
  consumes (JSON.keyword k v (c :: s)) (c :: s).
Proof.
  intros Hk. unfold JSON.keyword, consumes.
  destruct (startsWith (lit k) (c :: s)); [|exact I].
  rewrite length_skipn.
  assert (L : (0 < length (lit k))%nat).
  { destruct k; [cbn in Hk; lia | cbn; lia]. }
  cbn [length]. lia.
Qed.

Lemma descent_consumes : forall fuel,
  (forall s, consumes (JSON.parse_value fuel s) s) /\
  (forall acc s, consumes (JSON.parse_elements fuel acc s) s) /\
  (forall acc s, consumes (JSON.parse_members fuel acc s) s).
Proof.
  induction fuel as [|fuel (IHv & IHe & IHm)];
    [repeat split; intros; exact I|].
  split; [|split].
  - intros s. cbn [JSON.parse_value].
    destruct (JSON.skip_ws s) as [|c s'] eqn:Hs; [exact I|].
    apply skip_ws_cons in Hs.
    destruct (c =? 123)%N.
    { destruct (JSON.skip_ws s') as [|d s''] eqn:Hs'; [exact I|].
      apply skip_ws_cons in Hs'.
      destruct (d =? 125)%N; [cbn; lia|].
      specialize (IHm [] (d :: s'')). unfold consumes in *.
      destruct (JSON.parse_members fuel [] (d :: s'')); try exact I.
      cbn [length] in IHm. lia. }
    destruct (c =? 91)%N.
    { destruct (JSON.skip_ws s') as [|d s''] eqn:Hs'; [exact I|].
      apply skip_ws_cons in Hs'.
      destruct (d =? 93)%N; [cbn; lia|].
      specialize (IHe [] (d :: s'')). unfold consumes in *.
      destruct (JSON.parse_elements fuel [] (d :: s'')); try exact I.
      cbn [length] in IHe. lia. }
    destruct (c =? 34)%N.
    { destruct (JSON.string_body [] s') as [[v r]|] eqn:Hb; [|exact I].
      apply string_body_length in Hb. cbn. lia. }
    assert (Hk : forall k v, (0 < String.length k)%nat ->
                             consumes (JSON.keyword k v (c :: s')) s).
    { intros k v Hk. pose proof (keyword_consumes k v c s' Hk) as H.
      unfold consumes in *. destruct (JSON.keyword k v (c :: s')); try exact I.
      cbn [length] in H. lia. }
    destruct (c =? 116)%N; [apply Hk; cbn; lia|].
    destruct (c =? 102)%N; [apply Hk; cbn; lia|].
    destruct (c =? 110)%N; [apply Hk; cbn; lia|].
    destruct (JSON.lex_number (c :: s')) as [[l r]|] eqn:Hl; [|exact I].
    apply lex_number_length in Hl. cbn [length] in Hl. cbn. lia.
  - intros acc s. cbn [JSON.parse_elements].
    specialize (IHv s). unfold consumes in IHv.
    destruct (JSON.parse_value fuel s) as [v r| |]; try exact I.
    destruct (JSON.skip_ws r) as [|c r'] eqn:Hr; [exact I|].
    apply skip_ws_cons in Hr.
    destruct (c =? 44)%N.
    { specialize (IHe (v :: acc) r'). unfold consumes in *.
      destruct (JSON.parse_elements fuel (v :: acc) r'); try exact I. lia. }
    destruct (c =? 93)%N; [cbn; lia | exact I].
  - intros acc s. cbn [JSON.parse_members].
    destruct (JSON.skip_ws s) as [|q s1] eqn:Hs; [exact I|].
    apply skip_ws_cons in Hs.
    destruct (negb (q =? 34)%N); [exact I|].
    destruct (JSON.string_body [] s1) as [[k s2]|] eqn:Hb; [|exact I].
    apply string_body_length in Hb.
    destruct (JSON.skip_ws s2) as [|c s3] eqn:Hs2; [exact I|].
    apply skip_ws_cons in Hs2.
    destruct (negb (c =? 58)%N); [exact I|].
    specialize (IHv s3). unfold consumes in IHv.
    destruct (JSON.parse_value fuel s3) as [v r| |]; try exact I.
    destruct (JSON.skip_ws r) as [|d r'] eqn:Hr; [exact I|].
    apply skip_ws_cons in Hr.
    destruct (d =? 44)%N.
    { specialize (IHm ((k, v) :: acc) r'). unfold consumes in *.
      destruct (JSON.parse_members fuel ((k, v) :: acc) r'); try exact I. lia. }
    destruct (d =? 125)%N; [cbn; lia | exact I].
Qed.

Lemma descent_has_fuel : forall fuel,
  (forall s, (2 * length s + 1 <= fuel)%nat ->
             JSON.parse_value fuel s <> JSON.OutOfFuel) /\
  (forall acc s, (2 * length s + 2 <= fuel)%nat ->
                 JSON.parse_elements fuel acc s <> JSON.OutOfFuel) /\
  (forall acc s, (2 * length s + 2 <= fuel)%nat ->
                 JSON.parse_members fuel acc s <> JSON.OutOfFuel).
Proof.
  induction fuel as [|fuel (IHv & IHe & IHm)];
    [repeat split; intros; lia|].
  split; [|split].
  - intros s Hf. cbn [JSON.parse_value].
    destruct (JSON.skip_ws s) as [|c s'] eqn:Hs; [discriminate|].
    apply skip_ws_cons in Hs.
    destruct (c =? 123)%N.
    { destruct (JSON.skip_ws s') as [|d s''] eqn:Hs'; [discriminate|].
      apply skip_ws_cons in Hs'.
      destruct (d =? 125)%N; [discriminate|].
      apply IHm. cbn [length]. lia. }
    destruct (c =? 91)%N.
    { destruct (JSON.skip_ws s') as [|d s''] eqn:Hs'; [discriminate|].
      apply skip_ws_cons in Hs'.
      destruct (d =? 93)%N; [discriminate|].
      apply IHe. cbn [length]. lia. }
    destruct (c =? 34)%N.
    { destruct (JSON.string_body [] s') as [[v r]|]; discriminate. }
    unfold JSON.keyword.
    repeat match goal with
           | |- context [if ?b then _ else _] => destruct b
           end; try discriminate.
    destruct (JSON.lex_number (c :: s')) as [[l r]|]; discriminate.
  - intros acc s Hf. cbn [JSON.parse_elements].
    pose proof (proj1 (descent_consumes fuel) s) as Hc.
    unfold consumes in Hc.
    destruct (JSON.parse_value fuel s) as [v r| |] eqn:Hv; [|discriminate|].
    + destruct (JSON.skip_ws r) as [|c r'] eqn:Hr; [discriminate|].
      apply skip_ws_cons in Hr.
      destruct (c =? 44)%N; [apply IHe; lia|].
      destruct (c =? 93)%N; discriminate.
    + exfalso. revert Hv. apply IHv. lia.
  - intros acc s Hf. cbn [JSON.parse_members].
    destruct (JSON.skip_ws s) as [|q s1] eqn:Hs; [discriminate|].
    apply skip_ws_cons in Hs.
    destruct (negb (q =? 34)%N); [discriminate|].
    destruct (JSON.string_body [] s1) as [[k s2]|] eqn:Hb; [|discriminate].
    apply string_body_length in Hb.
    destruct (JSON.skip_ws s2) as [|c s3] eqn:Hs2; [discriminate|].
    apply skip_ws_cons in Hs2.
    destruct (negb (c =? 58)%N); [discriminate|].
    pose proof (proj1 (descent_consumes fuel) s3) as Hc.
    unfold consumes in Hc.
    destruct (JSON.parse_value fuel s3) as [v r| |] eqn:Hv; [|discriminate|].
    + destruct (JSON.skip_ws r) as [|d r'] eqn:Hr; [discriminate|].
      apply skip_ws_cons in Hr.
      destruct (d =? 44)%N; [apply IHm; lia|].
      destruct (d =? 125)%N; discriminate.
    + exfalso. revert Hv. apply IHv. lia.
Qed.

(** The decoder never gives up for want of fuel: it returns a JSON.value or
    throws a [SyntaxError]. *)
Lemma parse_has_fuel (text : str) :
  (exists v, JSON.parse text = Normal v) \/ JSON.parse text = Throw SyntaxError.
Proof.
  unfold JSON.parse.
  pose proof (proj1 (descent_has_fuel (2 * length text + 2)) text) as H.
  destruct (JSON.parse_value (2 * length text + 2) text) as [v r| |];
    [|now right|exfalso; apply H; [lia | reflexivity]].
  destruct (JSON.skip_ws r); [left; now exists v | now right].
Qed.
